(** * sf-deleted-fields: a shallow embedding of [main.go]

    The program asks the Salesforce CLI for the deleted fields of an
    organisation, resolves every deleted field to the qualified API names
    that still carry it, counts the records of each, and merges the counts
    into a JSON file.  This development embeds the string helpers, the three
    pipeline stages, the count query and the export step, and proves the
    properties the specification states about them. *)

From Stdlib Require Import ZArith Lia.
From stdpp Require Import gmap strings list fin_maps.

Set Warnings "-register-all,-clear-no-such-hyp".

Local Open Scope Z_scope.
Local Open Scope string_scope.
Local Open Scope list_scope.

(** ** Go strings

    A Go string is a sequence of bytes; [string] is a sequence of [ascii]
    (eight bits each).  Only the functions of package [strings] that the
    program calls are embedded. *)

Module strings.

(** [strings.HasPrefix(s, prefix)]. *)
Fixpoint HasPrefix (s prefix : string) {struct prefix} : bool :=
  match prefix, s with
  | EmptyString, _ => true
  | String p prefix', String a s' => Ascii.eqb a p && HasPrefix s' prefix'
  | String _ _, EmptyString => false
  end.

(** [len(s)]. *)
Fixpoint len (s : string) : nat :=
  match s with
  | EmptyString => O
  | String _ s' => S (len s')
  end.

(** [s[n:]] for [n <= len(s)]; past the end Go panics, callers below never
    go there. *)
Fixpoint sliceFrom (s : string) (n : nat) {struct n} : string :=
  match n, s with
  | O, _ => s
  | S n', String _ s' => sliceFrom s' n'
  | S _, EmptyString => EmptyString
  end.

(** [strings.HasSuffix(s, suffix)]:
    [len(s) >= len(suffix) && s[len(s)-len(suffix):] == suffix]. *)
Definition HasSuffix (s suffix : string) : bool :=
  (len suffix <=? len s)%nat &&
  String.eqb (sliceFrom s (len s - len suffix)) suffix.

(** [strings.Index(s, substr)]: the offset of the first occurrence, or -1. *)
Fixpoint Index (s substr : string) : Z :=
  if HasPrefix s substr then 0
  else match s with
       | EmptyString => -1
       | String _ s' =>
           let i := Index s' substr in
           if (i =? -1)%Z then -1 else i + 1
       end.

(** [strings.Contains(s, substr)] is [Index(s, substr) >= 0]. *)
Definition Contains (s substr : string) : bool := (0 <=? Index s substr)%Z.

(** [strings.Split(s, sep)] for a separator of one byte, which is what every
    call site passes (a line feed or a comma).  The result is never empty:
    a string with [n] separators splits into [n + 1] pieces. *)
Fixpoint Split (s : string) (sep : Ascii.ascii) : list string :=
  match s with
  | EmptyString => [EmptyString]
  | String a s' =>
      if Ascii.eqb a sep then EmptyString :: Split s' sep
      else match Split s' sep with
           | [] => [String a EmptyString]
           | w :: ws => String a w :: ws
           end
  end.

(** [strings.ReplaceAll(s, old, new)] for [old] of one byte. *)
Fixpoint ReplaceAll (s : string) (old : Ascii.ascii) (new : string) : string :=
  match s with
  | EmptyString => EmptyString
  | String a s' =>
      if Ascii.eqb a old then new +:+ ReplaceAll s' old new
      else String a (ReplaceAll s' old new)
  end.

End strings.

(** The two separators. *)
Definition LF : Ascii.ascii := Ascii.ascii_of_nat 10.
Definition COMMA : Ascii.ascii := Ascii.ascii_of_nat 44.

(** ** Go [int]

    The release workflow builds for amd64 only, where [int] has 64 bits;
    [+=] on it wraps around. *)

Definition wrap64 (z : Z) : Z := (z + 2 ^ 63) mod 2 ^ 64 - 2 ^ 63.

Definition int_add (a b : Z) : Z := wrap64 (a + b).

(** ** The data model *)

Record DeleteCountRecord := {
  DeveloperName : string;
  TableEnumOrId : string;
  QualifiedApiName : string;
  ApiName : string;
  Count : Z;
  Timestamp : Z
}.

(** [LastCount]; its fields are [Date] and [Count] in the source, the second
    is renamed because [Count] is the projection of [DeleteCountRecord]. *)
Record LastCount := {
  Date : string;
  DateCount : Z
}.

Record ExportData := {
  Results : list DeleteCountRecord;
  LastRunCount : list LastCount
}.

#[global] Instance DeleteCountRecord_eq_dec : EqDecision DeleteCountRecord.
Proof. solve_decision. Defined.

#[global] Instance LastCount_eq_dec : EqDecision LastCount.
Proof. solve_decision. Defined.

#[global] Instance ExportData_eq_dec : EqDecision ExportData.
Proof. solve_decision. Defined.

(** ** Calendar dates

    [time.Unix(ts, 0).Format("2006-01-02")] renders the calendar date of the
    instant [ts] in the zone of the process.  The zone is an input of the
    program, so the functions below take the rendering as a parameter
    [dateOf]; [utcDate] is the rendering for a process running in UTC. *)

Module civil.

Definition digit (d : Z) : Ascii.ascii := Ascii.ascii_of_nat (48 + Z.to_nat d).

(** The last [width] decimal digits of [n], most significant first. *)
Fixpoint padded (width : nat) (n : Z) (acc : string) : string :=
  match width with
  | O => acc
  | S w => padded w (n / 10) (String (digit (n mod 10)) acc)
  end.

(** Days since 1970-01-01 to (year, month, day) of the proleptic Gregorian
    calendar. *)
Definition fromDays (days : Z) : Z * Z * Z :=
  let z := days + 719468 in
  let era := z / 146097 in
  let doe := z - era * 146097 in
  let yoe := (doe - doe / 1460 + doe / 36524 - doe / 146096) / 365 in
  let doy := doe - (365 * yoe + yoe / 4 - yoe / 100) in
  let mp := (5 * doy + 2) / 153 in
  let d := doy - (153 * mp + 2) / 5 + 1 in
  let m := if (mp <? 10)%Z then mp + 3 else mp - 9 in
  let y := yoe + era * 400 + (if (m <=? 2)%Z then 1 else 0) in
  (y, m, d).

End civil.

(** The layout "2006-01-02" at an instant of the years 0 to 9999, in UTC. *)
Definition utcDate (ts : Z) : string :=
  let '(y, m, d) := civil.fromDays (ts / 86400) in
  civil.padded 4 y ("-" +:+ civil.padded 2 m ("-" +:+ civil.padded 2 d "")).

(** ** The aggregator: [calculateCurCounts] *)

Section Aggregator.

Variable dateOf : Z -> string.

(** The two maps of the loop: [counts] and [processed]. *)
Definition CountState : Type := gmap string Z * gmap string (gmap string bool).

(** Reading a Go map at a missing key gives the zero value. *)
Definition countAt (counts : gmap string Z) (date : string) : Z :=
  default 0 (counts !! date).

Definition seenAt (processed : gmap string (gmap string bool))
    (date name : string) : bool :=
  default false (default ∅ (processed !! date) !! name).

(** One iteration of the loop over [records]. *)
Definition countRecord (st : CountState) (record : DeleteCountRecord) : CountState :=
  let '(counts, processed) := st in
  let date := dateOf (Timestamp record) in
  let processed :=
    match processed !! date with
    | Some _ => processed
    | None => <[date := ∅]> processed
    end in
  if negb (seenAt processed date (QualifiedApiName record)) then
    (<[date := int_add (countAt counts date) (Count record)]> counts,
     <[date := <[QualifiedApiName record := true]> (default ∅ (processed !! date))]>
       processed)
  else (counts, processed).

Definition countRecords (records : list DeleteCountRecord) : CountState :=
  foldl countRecord (∅, ∅) records.

(** The map [counts] after the loop. *)
Definition countsOf (records : list DeleteCountRecord) : gmap string Z :=
  fst (countRecords records).

Definition toLastCount (entry : string * Z) : LastCount :=
  {| Date := entry.1; DateCount := entry.2 |}.

(** [calculateCurCounts], with the entries of [counts] in the order of
    [map_to_list].  [now] is the instant [time.Now()] returns, in seconds
    since the epoch; the layout has no finer unit. *)
Definition calculateCurCounts (now : Z)
    (records : list DeleteCountRecord) : list LastCount :=
  match records with
  | [] => let todayDate := dateOf now in [ {| Date := todayDate; DateCount := 0 |} ]
  | _ => toLastCount <$> map_to_list (countsOf records)
  end.

(** Go visits the entries of a map in an order that is not specified and
    that changes from one [range] to the next, so what [calculateCurCounts]
    may return is any arrangement of the list above. *)
Definition curCounts (now : Z) (records : list DeleteCountRecord)
    (out : list LastCount) : Prop :=
  out ≡ₚ calculateCurCounts now records.


End Aggregator.

(** ** Errors and abnormal ends

    A Go [error] is one of the values the program builds with [fmt.Errorf],
    or the reason of a [log.Fatalf] of the export step. *)

Inductive error : Type :=
  | QueryFileReadFailed
  | CommandFailed (output : string)
  | UnmarshalFailed (output : string)
  | ResultNotMap
  | TotalSizeNotFloat64
  | OpenFailed
  | DecodeFailed
  | CreateFailed
  | EncodeFailed
  | HashFailed.

(** A function that returns [(T, error)]. *)
Inductive Result (A : Type) : Type :=
  | Ok (a : A)
  | Err (e : error).
Arguments Ok {A} a.
Arguments Err {A} e.

(** How a piece of the program ends: it returns, or the process stops in
    [log.Fatal] (exit status 1), or it stops in a run-time panic, here
    always an index out of range. *)
Inductive Outcome (A : Type) : Type :=
  | Done (a : A)
  | Fatal (e : error)
  | Panic.
Arguments Done {A} a.
Arguments Fatal {A} e.
Arguments Panic {A}.

(** ** The count query *)

Definition NL : string := String LF EmptyString.

(** The marker of an advisory line of the CLI: U+00BB, two bytes in UTF-8. *)
Definition RAQUO : string :=
  String (Ascii.ascii_of_nat 194) (String (Ascii.ascii_of_nat 187) EmptyString).

Definition skipFirstLineIfNeeded (output : string) : string :=
  if strings.Contains output RAQUO || strings.Contains output "update available" then
    let index := strings.Index output NL in
    if negb (index =? -1)%Z then strings.sliceFrom output (Z.to_nat (index + 1))
    else output
  else output.

Section CountQuery.

(** [float64], and the conversion [int(f)]; the program applies nothing
    else to a number. *)
Variable float64 : Type.
Variable float64ToInt : float64 -> Z.

(** What [json.Unmarshal] stores in an [interface{}]. *)
Inductive GoValue : Type :=
  | VNil
  | VBool (b : bool)
  | VFloat64 (f : float64)
  | VString (s : string)
  | VSlice (l : list GoValue)
  | VMap (m : gmap string GoValue).

(** [json.Unmarshal(output, &jsonData)] for [jsonData] of type
    [map[string]interface{}]: the map it leaves in [jsonData], or an error. *)
Variable jsonUnmarshal : string -> option (gmap string GoValue).

(** [exec.Command("sf", args...).CombinedOutput()]: the output, and whether
    the command ended well. *)
Variable sf : list string -> string * bool.

Definition queryCount (cmdArgs : list string) : Result Z :=
  let '(output, ok) := sf cmdArgs in
  if negb ok then Err (CommandFailed output)
  else
    let output := skipFirstLineIfNeeded output in
    match jsonUnmarshal output with
    | None => Err (UnmarshalFailed output)
    | Some jsonData =>
        match jsonData !! "result" with
        | Some (VMap result) =>
            match result !! "totalSize" with
            | Some (VFloat64 totalSize) => Ok (float64ToInt totalSize)
            | _ => Err TotalSizeNotFloat64
            end
        | _ => Err ResultNotMap
        end
    end.

(** ** The field queries *)

(** The embedded files [soql/*.soql]. *)
Variable queries : string -> option string.

Fixpoint extractCSVLines (lines : list string) (processingCSV : bool)
    (csvData : string) : string :=
  match lines with
  | [] => csvData
  | line :: lines' =>
      if processingCSV then
        if negb (String.eqb line "") then extractCSVLines lines' true (csvData +:+ line +:+ NL)
        else extractCSVLines lines' true csvData
      else if strings.Contains line "," then
        extractCSVLines lines' true (csvData +:+ line +:+ NL)
      else extractCSVLines lines' false csvData
  end.

Definition extractCSVData (output : string) : string :=
  extractCSVLines (strings.Split output LF) false "".

Definition queryFieldData (sfOrg queryFile queryId : string) (useToolingApi : bool)
    : Result string :=
  match queries queryFile with
  | None => Err QueryFileReadFailed
  | Some queryData =>
      let queryDataStr := strings.ReplaceAll queryData LF " " in
      let queryDataStr :=
        if negb (String.eqb queryId "")
        then strings.ReplaceAll queryDataStr (Ascii.ascii_of_nat 35) queryId
        else queryDataStr in
      let cmdArgs := ["data"; "query"; "-o"; sfOrg; "-r"; "csv"; "-q"; queryDataStr] in
      let cmdArgs := if useToolingApi then cmdArgs ++ ["-t"] else cmdArgs in
      let '(output, ok) := sf cmdArgs in
      if negb ok then Err (CommandFailed output)
      else Ok (extractCSVData output)
  end.

(** ** The pipeline

    The state of the process that the three stages touch: the accumulator
    [deleteCounts], and how often the clock was read.  The stages start one
    goroutine per row and wait for all of them; the embedding runs each
    goroutine to its end where it is started.  The rows of one table are
    therefore handled in their order, where the program may interleave them:
    the accumulator of the program holds the same records in some order, and
    when several rows end the process, the program stops at any one of
    them. *)

Record Process := {
  deleteCounts : list DeleteCountRecord;
  clockReads : nat
}.

(** [clock n] is what the read number [n] of [time.Now().Unix()] returns. *)
Variable clock : nat -> Z.

Definition Run (A : Type) : Type := Process -> Outcome (A * Process).

#[global] Instance Run_ret : MRet Run := fun A a p => Done (a, p).

#[global] Instance Run_bind : MBind Run := fun A B k m p =>
  match m p with
  | Done (a, p') => k a p'
  | Fatal e => Fatal e
  | Panic => Panic
  end.

(** [data[i]]. *)
Definition index (data : list string) (i : nat) : Run string := fun p =>
  match data !! i with
  | Some field => Done (field, p)
  | None => Panic
  end.

(** [v, err := f(...); if err != nil { log.Fatal(err) }]. *)
Definition orFatal {A : Type} (r : Result A) : Run A := fun p =>
  match r with
  | Ok a => Done (a, p)
  | Err e => Fatal e
  end.

Definition timeNowUnix : Run Z := fun p =>
  Done (clock (clockReads p),
        {| deleteCounts := deleteCounts p; clockReads := S (clockReads p) |}).

(** [mu.Lock(); deleteCounts = append(deleteCounts, record); mu.Unlock()]. *)
Definition appendRecord (record : DeleteCountRecord) : Run unit := fun p =>
  Done (tt, {| deleteCounts := deleteCounts p ++ [record]; clockReads := clockReads p |}).

(** [for _, x := range xs { body }; wg.Wait()]. *)
Fixpoint forEach {A : Type} (xs : list A) (body : A -> Run unit) : Run unit :=
  match xs with
  | [] => mret tt
  | x :: xs' => body x ;; forEach xs' body
  end.

(** The body of the loop of [processApiNames] (stage C). *)
Definition apiNameLine (developerName tableEnumOrId org apiLine : string) : Run unit :=
  if String.eqb apiLine "" then mret tt
  else
    let apiData := strings.Split apiLine COMMA in
    apiData2 ← index apiData 2;
    if String.eqb apiData2 "QualifiedApiName" then mret tt
    else
      let query := "SELECT Count() FROM " +:+ apiData2 in
      let cmdArgs := ["data"; "query"; "-q"; query; "-o"; org; "-r"; "json"] in
      count ← orFatal (queryCount cmdArgs);
      timestamp ← timeNowUnix;
      apiData1 ← index apiData 1;
      appendRecord {| DeveloperName := developerName;
                      TableEnumOrId := tableEnumOrId;
                      QualifiedApiName := apiData2;
                      ApiName := apiData1;
                      Count := count;
                      Timestamp := timestamp |}.

Definition processApiNames (apiNameCSV developerName tableEnumOrId apiName org : string)
    : Run unit :=
  forEach (strings.Split apiNameCSV LF) (apiNameLine developerName tableEnumOrId org).

(** The body of the loop of [processDeveloperNames] (stage B). *)
Definition developerNameLine (developerName tableEnumOrId org devLine : string) : Run unit :=
  if String.eqb devLine "" then mret tt
  else
    let apiData := strings.Split devLine COMMA in
    apiData1 ← index apiData 1;
    if String.eqb apiData1 "DeveloperName" then mret tt
    else
      apiNameCSV ← orFatal (queryFieldData org "soql/developer_name_to_api_name.soql"
                              apiData1 false);
      processApiNames apiNameCSV developerName tableEnumOrId apiData1 org.

Definition processDeveloperNames (devNameCSV developerName tableEnumOrId org : string)
    : Run unit :=
  forEach (strings.Split devNameCSV LF) (developerNameLine developerName tableEnumOrId org).

(** The body of the loop of [processDeletedFields] (stage A).  The log line
    of a row without the suffix prints [data[1]], so it reads it. *)
Definition deletedFieldLine (org line : string) : Run unit :=
  if String.eqb line "" || strings.HasPrefix line "DeveloperName" then mret tt
  else
    let data := strings.Split line COMMA in
    data0 ← index data 0;
    if negb (strings.HasSuffix data0 "_del") then
      index data 1 ;; mret tt
    else
      data1 ← index data 1;
      if strings.HasPrefix data1 "01I" then
        devNameCSV ← orFatal (queryFieldData org "soql/enum_to_developer_name.soql"
                                data1 true);
        processDeveloperNames devNameCSV data0 data1 org
      else
        let devNameCSV :=
          data0 +:+ ",DeveloperName" +:+ NL +:+ data0 +:+ "," +:+ data0 in
        processDeveloperNames devNameCSV data0 data1 org.

Definition processDeletedFields (deletedFieldsCSV org : string) : Run unit :=
  forEach (strings.Split deletedFieldsCSV LF) (deletedFieldLine org).

End CountQuery.

Arguments VNil {float64}.
Arguments VBool {float64} b.
Arguments VFloat64 {float64} f.
Arguments VString {float64} s.
Arguments VSlice {float64} l.
Arguments VMap {float64} m.

(** ** The export step

    [Bytes] is the content of a file.  [jsonDecode] is
    [json.NewDecoder(file).Decode(&exportData)] on a zero [exportData]: the
    value it leaves there, or an error; [jsonEncode] is what the indenting
    encoder writes. *)

Section ExportStep.

Variable dateOf : Z -> string.
Variable Bytes : Type.
Variable jsonDecode : Bytes -> option ExportData.
Variable jsonEncode : ExportData -> Bytes.

(** The file [filename]: [os.Stat] fails, or it succeeds and the file has a
    content. *)
Inductive File : Type :=
  | Missing
  | Present (content : Bytes).

(** What the system may refuse during one call: to open the file, to create
    it, to take the whole encoding ([written] is what it took), to read the
    file back for the checksum. *)
Inductive Fault : Type :=
  | NoFault
  | OpenFails
  | CreateFails
  | EncodeFails (written : Bytes)
  | HashFails.

(** Lines 306 to 320: the state the step starts from. *)
Definition loadExportData (fault : Fault) (file : File) : Outcome ExportData :=
  match file with
  | Missing => Done {| Results := []; LastRunCount := [] |}
  | Present content =>
      match fault with
      | OpenFails => Fatal OpenFailed
      | _ =>
          match jsonDecode content with
          | Some exportData => Done exportData
          | None => Fatal DecodeFailed
          end
      end
  end.

(** Lines 325 to 342: [os.Create] empties the file, the encoder fills it. *)
Definition writeExportData (fault : Fault) (file : File) (exportData : ExportData)
    : Outcome unit * File :=
  match fault with
  | CreateFails => (Fatal CreateFailed, file)
  | EncodeFails written => (Fatal EncodeFailed, Present written)
  | HashFails => (Fatal HashFailed, Present (jsonEncode exportData))
  | _ => (Done tt, Present (jsonEncode exportData))
  end.

(** [exportResultsAsJSON(filename)] with [deleteCounts] as the pipeline left
    it, called at the instant [now]: the pairs of an outcome and a file it
    can end with.  There is one pair for each order in which line 376 visits
    [counts]. *)
Definition exportResultsAsJSON (fault : Fault) (file : File)
    (deleteCounts : list DeleteCountRecord) (now : Z)
    (res : Outcome unit * File) : Prop :=
  match loadExportData fault file with
  | Done exportData =>
      exists lastRunCount,
        curCounts dateOf now deleteCounts lastRunCount /\
        res = writeExportData fault file
                {| Results := Results exportData ++ deleteCounts;
                   LastRunCount := lastRunCount |}
  | Fatal e => res = (Fatal e, file)
  | Panic => res = (Panic, file)
  end.

(** The same step with [counts] visited in the order of [map_to_list]. *)
Definition exportResultsAsJSON_run (fault : Fault) (file : File)
    (deleteCounts : list DeleteCountRecord) (now : Z) : Outcome unit * File :=
  match loadExportData fault file with
  | Done exportData =>
      writeExportData fault file
        {| Results := Results exportData ++ deleteCounts;
           LastRunCount := calculateCurCounts dateOf now deleteCounts |}
  | Fatal e => (Fatal e, file)
  | Panic => (Panic, file)
  end.

(** Reading the persisted state back, as the next call does. *)
Definition reload (file : File) : option ExportData :=
  match file with
  | Missing => None
  | Present content => jsonDecode content
  end.

End ExportStep.

Arguments Missing {Bytes}.
Arguments Present {Bytes} content.
Arguments NoFault {Bytes}.
Arguments OpenFails {Bytes}.
Arguments CreateFails {Bytes}.
Arguments EncodeFails {Bytes} written.
Arguments HashFails {Bytes}.
Arguments reload {Bytes} jsonDecode file.

(** ** The recompute phase in the words of the specification

    "Group the records by the record's timestamp truncated to calendar
    date; within each date, sum each record's count, but count a given
    qualified-name object only once per date (first-seen-wins)."  These
    definitions follow that sentence; they are compared with [countsOf]
    below. *)

Section CurrentCountsSpec.

Variable dateOf : Z -> string.

Definition dateKey (record : DeleteCountRecord) : string :=
  dateOf (Timestamp record).

(** The date and the object a record counts for. *)
Definition keyOf (record : DeleteCountRecord) : string * string :=
  (dateKey record, QualifiedApiName record).

(** The records of one date. *)
Definition onDate (date : string) (records : list DeleteCountRecord)
    : list DeleteCountRecord :=
  filter (fun record => dateKey record = date) records.

(** The first record of every qualified name that is not in [seen]. *)
Fixpoint firstSeenWins (seen : gset string) (records : list DeleteCountRecord)
    : list DeleteCountRecord :=
  match records with
  | [] => []
  | record :: records' =>
      if decide (QualifiedApiName record ∈ seen) then firstSeenWins seen records'
      else record :: firstSeenWins ({[QualifiedApiName record]} ∪ seen) records'
  end.

Definition sumCounts (records : list DeleteCountRecord) : Z :=
  foldr Z.add 0 (Count <$> records).

(** The total of one date, as a mathematical integer. *)
Definition dateTotal (date : string) (records : list DeleteCountRecord) : Z :=
  sumCounts (firstSeenWins ∅ (onDate date records)).

End CurrentCountsSpec.

(** ** The gate of stage A in the words of the specification

    "A row is processed only if its primary field name ends with the
    deletion-marker suffix; a header row is skipped."  The primary field is
    the first of the comma-separated fields of the row. *)

Definition primaryField (line : string) : string :=
  hd "" (strings.Split line COMMA).

Definition isHeader (line : string) : bool :=
  strings.HasPrefix line "DeveloperName".

Definition eligible (line : string) : bool :=
  negb (String.eqb line "") && negb (isHeader line) &&
  strings.HasSuffix (primaryField line) "_del".

(** The number of comma-separated fields of a row. *)
Definition fieldCount (line : string) : nat :=
  length (strings.Split line COMMA).

(** ** Definitions the proofs use *)

(** Two states of the loop of [calculateCurCounts] agree when no later
    iteration can tell them apart. *)
Definition agree (st1 st2 : CountState) : Prop :=
  st1.1 = st2.1 ∧ forall d n, seenAt st1.2 d n = seenAt st2.2 d n.

(** What the loop keeps true of its two maps: the totals are [int]s, and
    a date with a counted object has a total. *)
Definition loopInvariant (st : CountState) : Prop :=
  (forall d c, st.1 !! d = Some c -> wrap64 c = c) ∧
  (forall d n, seenAt st.2 d n = true -> is_Some (st.1 !! d)).

(** Whether the loop already counted the object of [record] on its date. *)
Definition seenRecord (dateOf : Z -> string) (st : CountState)
    (record : DeleteCountRecord) : bool :=
  seenAt st.2 (dateKey dateOf record) (QualifiedApiName record).

(** The entry of an empty batch. *)
Definition zeroToday (dateOf : Z -> string) (now : Z) : LastCount :=
  {| Date := dateOf now; DateCount := 0 |}.

(** The records a piece of the pipeline appends all satisfy [P]. *)
Definition appends (P : DeleteCountRecord -> Prop) (m : Run unit) : Prop :=
  forall p u p',
    m p = Done (u, p') ->
    exists new, deleteCounts p' = deleteCounts p ++ new ∧ Forall P new.

(** The table stage A hands to stage B for a row of fields [data0] and
    [data1]: lines 168 to 181 up to the call of [processDeveloperNames]. *)
Definition developerNamesOf (sf : list string -> string * bool)
    (queries : string -> option string) (org data0 data1 : string) : Run string :=
  if strings.HasPrefix data1 "01I" then
    orFatal (queryFieldData sf queries org "soql/enum_to_developer_name.soql" data1 true)
  else
    mret (data0 +:+ ",DeveloperName" +:+ NL +:+ data0 +:+ "," +:+ data0).

(** ** A small world for the examples

    One organisation with one deleted field [Foo_del] on a metadata table;
    the CLI answers every field query with one table and every count query
    with an advisory line followed by a JSON document. *)

Definition DQ : string := String (Ascii.ascii_of_nat 34) EmptyString.

Definition exampleJSON : string :=
  "{" +:+ DQ +:+ "result" +:+ DQ +:+ ":{" +:+ DQ +:+ "totalSize" +:+ DQ +:+ ":7}}".

Definition exampleTable : string :=
  "Id,DeveloperName,QualifiedApiName" +:+ NL +:+ "1,Foo__c,Acme__Foo__c" +:+ NL.

Definition exampleSf (cmdArgs : list string) : string * bool :=
  if bool_decide (last cmdArgs = Some "json")
  then (" " +:+ RAQUO +:+ " Warning: @salesforce/cli update available" +:+ NL +:+ exampleJSON,
        true)
  else ("Querying Data... done" +:+ NL +:+ exampleTable, true).

(** Numbers are integers in this world. *)
Definition exampleUnmarshal (output : string) : option (gmap string (GoValue Z)) :=
  if String.eqb output exampleJSON
  then Some {[ "result" := VMap {[ "totalSize" := VFloat64 7 ]} ]}
  else None.

Definition exampleQueries (queryFile : string) : option string :=
  Some ("SELECT Id, DeveloperName" +:+ NL +:+ "FROM CustomObject WHERE Id = '#'").

Definition exampleClock (n : nat) : Z := 1700000000 + Z.of_nat n.

Definition freshProcess : Process := {| deleteCounts := []; clockReads := 0 |}.

Definition exampleDeletedFields : string :=
  "DeveloperName,TableEnumOrId" +:+ NL +:+
  "Foo_del,01I000000000001" +:+ NL +:+
  "Bar,Account" +:+ NL.

Definition fooRecord : DeleteCountRecord :=
  {| DeveloperName := "Foo_del"; TableEnumOrId := "01I000000000001";
     QualifiedApiName := "Acme__Foo__c"; ApiName := "Foo__c";
     Count := 7; Timestamp := 1700000000 |}.



(** ** A codec for the examples

    A file holds a state, or bytes that do not decode. *)

Inductive Document : Type :=
  | Garbage (text : string)
  | Json (exportData : ExportData).

Definition decodeDocument (doc : Document) : option ExportData :=
  match doc with
  | Garbage _ => None
  | Json exportData => Some exportData
  end.


(** Four records: three of 14 November 2023 (at 08:00 and 12:00 UTC), two
    of them of one object, and one of the next day. *)
Definition accountMorning : DeleteCountRecord :=
  {| DeveloperName := "A_del"; TableEnumOrId := "Account";
     QualifiedApiName := "Account"; ApiName := "A_del";
     Count := 5; Timestamp := 1699948800 |}.

Definition contactNoon : DeleteCountRecord :=
  {| DeveloperName := "C_del"; TableEnumOrId := "Contact";
     QualifiedApiName := "Contact"; ApiName := "C_del";
     Count := 3; Timestamp := 1699963200 |}.

Definition accountNoon : DeleteCountRecord :=
  {| DeveloperName := "A_del"; TableEnumOrId := "Account";
     QualifiedApiName := "Account"; ApiName := "A_del";
     Count := 9; Timestamp := 1699963200 |}.

Definition contactNextDay : DeleteCountRecord :=
  {| DeveloperName := "C_del"; TableEnumOrId := "Contact";
     QualifiedApiName := "Contact"; ApiName := "C_del";
     Count := 3; Timestamp := 1700049600 |}.



(** The persisted state after a first run that found [accountMorning]. *)
Definition stateAfterFirstRun : ExportData :=
  {| Results := [accountMorning];
     LastRunCount := [ {| Date := "2023-11-14"; DateCount := 5 |} ] |}.


(** ** The decoder in plain words

    [extractCSVData] keeps the lines of the output from the first line that
    holds a comma on, drops the empty ones, and ends each kept line with a
    line feed. *)

Fixpoint fromFirstComma (lines : list string) : list string :=
  match lines with
  | [] => []
  | line :: lines' =>
      if strings.Contains line "," then line :: lines' else fromFirstComma lines'
  end.

Definition csvLines (output : string) : list string :=
  filter (fun line => line ≠ "") (fromFirstComma (strings.Split output LF)).

Fixpoint unlines (lines : list string) : string :=
  match lines with
  | [] => ""
  | line :: lines' => line +:+ NL +:+ unlines lines'
  end.

(** ** Names for what the stages compute *)

(** The arguments of the count query of line 239. *)
Definition countArgs (org qualifiedApiName : string) : list string :=
  ["data"; "query"; "-q"; "SELECT Count() FROM " +:+ qualifiedApiName;
   "-o"; org; "-r"; "json"].

(** The rows of a stage-C table that stage C does not skip: not empty, and
    the third field is not the column title. *)
Definition apiRows (apiNameCSV : string) : list string :=
  filter (fun apiLine =>
            apiLine ≠ "" ∧ strings.Split apiLine COMMA !! 2%nat ≠ Some "QualifiedApiName")
    (strings.Split apiNameCSV LF).

(** The record stage C builds (lines 247 to 254). *)
Definition recordOf (developerName tableEnumOrId apiData1 apiData2 : string)
    (n timestamp : Z) : DeleteCountRecord :=
  {| DeveloperName := developerName; TableEnumOrId := tableEnumOrId;
     QualifiedApiName := apiData2; ApiName := apiData1;
     Count := n; Timestamp := timestamp |}.

(** ** Several runs, one after the other

    Each run of a list exports its batch at its instant to the file the run
    before it left; no run fails. *)

Section SeveralRuns.

Variable dateOf : Z -> string.
Variable Bytes : Type.
Variable jsonDecode : Bytes -> option ExportData.
Variable jsonEncode : ExportData -> Bytes.

Inductive exportRuns (file : File Bytes)
    : list (list DeleteCountRecord * Z) -> File Bytes -> Prop :=
  | exportRuns_nil : exportRuns file [] file
  | exportRuns_cons deleteCounts now file1 runs file2 :
      exportResultsAsJSON dateOf Bytes jsonDecode jsonEncode
        NoFault file deleteCounts now (Done tt, file1) ->
      exportRuns file1 runs file2 ->
      exportRuns file ((deleteCounts, now) :: runs) file2.

End SeveralRuns.

(** ** The program: [main]

    How the process ends: [main] returns, or it stops in [log.Fatal], or it
    panics. *)

Inductive Stop : Type :=
  | NoOrganization
  | SfNotInstalled
  | Failed (e : error).

Inductive Exit : Type :=
  | Returned
  | Stopped (reason : Stop)
  | Panicked.

Section Main.

Variable dateOf : Z -> string.
Variable Bytes : Type.
Variable jsonDecode : Bytes -> option ExportData.
Variable jsonEncode : ExportData -> Bytes.
Variable float64 : Type.
Variable float64ToInt : float64 -> Z.
Variable jsonUnmarshal : string -> option (gmap string (GoValue float64)).
Variable sf : list string -> string * bool.
Variable queries : string -> option string.
Variable clock : nat -> Z.

(** [sfCliInstallCheck]: whether [sf version] ends well; what it prints is
    only logged. *)
Definition sfCliInstallCheck : bool := (sf ["version"]).2.

Definition exitOf (outcome : Outcome unit) : Exit :=
  match outcome with
  | Done _ => Returned
  | Fatal e => Stopped (Failed e)
  | Panic => Panicked
  end.

(** [main] with the flags [--org] and [--export] parsed to [org] and
    [export], the file named by [export] in the state [file]: the pairs of
    an exit and a state of the file it can end with.  The accumulator starts
    empty; the export reads the clock after the pipeline. *)
Definition main (org export : string) (fault : Fault Bytes) (file : File Bytes)
    (res : Exit * File Bytes) : Prop :=
  if String.eqb org "" then res = (Stopped NoOrganization, file)
  else if negb sfCliInstallCheck then res = (Stopped SfNotInstalled, file)
  else
    match queryFieldData sf queries org "soql/deleted_fields.soql" "" true with
    | Err e => res = (Stopped (Failed e), file)
    | Ok deletedFieldsCSV =>
        match processDeletedFields float64 float64ToInt jsonUnmarshal sf queries clock
                deletedFieldsCSV org {| deleteCounts := []; clockReads := 0 |} with
        | Fatal e => res = (Stopped (Failed e), file)
        | Panic => res = (Panicked, file)
        | Done (_, p) =>
            if negb (String.eqb export "") then
              exists outcome file',
                exportResultsAsJSON dateOf Bytes jsonDecode jsonEncode
                  fault file (deleteCounts p) (clock (clockReads p)) (outcome, file') ∧
                res = (exitOf outcome, file')
            else res = (Returned, file)
        end
    end.

End Main.

(** ** The checksum of the written file

    An open file is its content and the offset of the next read or write.
    [os.Create] gives an empty file at offset 0; a write puts the bytes at
    the offset and moves it behind them; [io.Copy(hasher, file)] reads from
    the offset to the end. *)

Module openfile.

Record OpenFile := {
  content : string;
  offset : nat
}.

(** [s[:n]]. *)
Fixpoint sliceTo (s : string) (n : nat) {struct n} : string :=
  match n, s with
  | O, _ => ""
  | S n', String a s' => String a (sliceTo s' n')
  | S _, EmptyString => ""
  end.

Definition Create : OpenFile := {| content := ""; offset := 0 |}.

Definition Write (file : OpenFile) (data : string) : OpenFile :=
  {| content :=
       sliceTo (content file) (offset file) +:+ data +:+
       strings.sliceFrom (content file) (offset file + strings.len data);
     offset := offset file + strings.len data |}.

(** What a reader gets from the file until the end, and the file after. *)
Definition ReadAll (file : OpenFile) : string * OpenFile :=
  (strings.sliceFrom (content file) (offset file),
   {| content := content file; offset := strings.len (content file) |}).

End openfile.

Section Checksum.

(** [hex.EncodeToString] of the MD5 digest of some bytes. *)
Variable md5Hex : string -> string.

(** [calculateMD5(file)] when reading does not fail. *)
Definition calculateMD5 (file : openfile.OpenFile) : string * openfile.OpenFile :=
  let '(data, file') := openfile.ReadAll file in (md5Hex data, file').

(** Lines 325 to 337 for the encoding [encoded] of the state: the hash that
    line 342 logs, and the file. *)
Definition writeThenHash (encoded : string) : string * openfile.OpenFile :=
  let file := openfile.Create in
  let file := openfile.Write file encoded in
  calculateMD5 file.

End Checksum.

(** ** A second small world, for [main]

    The CLI tells the deleted-fields query from the other field queries by
    its text. *)

Definition mainQueries (queryFile : string) : option string :=
  if String.eqb queryFile "soql/deleted_fields.soql"
  then Some ("SELECT DeveloperName, TableEnumOrId" +:+ NL +:+ "FROM CustomField")
  else exampleQueries queryFile.

Definition mainSf (cmdArgs : list string) : string * bool :=
  match cmdArgs !! 7%nat with
  | Some query =>
      if strings.HasPrefix query "SELECT DeveloperName, TableEnumOrId"
      then ("Querying Data... done" +:+ NL +:+ exampleDeletedFields, true)
      else exampleSf cmdArgs
  | None => exampleSf cmdArgs
  end.

Definition stateOfTheRun : ExportData :=
  {| Results := [fooRecord];
     LastRunCount := [ {| Date := "2023-11-14"; DateCount := 7 |} ] |}.

(** ** The states the codec reads back as written

    [encoding/json] reads a string back as it was written when the string
    is valid UTF-8 (other bytes are written as U+FFFD), and an integer when
    it fits the 64 bits of the field.  [validString] says which strings
    these are. *)

Definition inInt64 (z : Z) : bool := (- 2 ^ 63 <=? z)%Z && (z <? 2 ^ 63)%Z.

Section Encodable.

Variable validString : string -> bool.

Definition encodableRecord (record : DeleteCountRecord) : bool :=
  validString (DeveloperName record) && validString (TableEnumOrId record) &&
  validString (QualifiedApiName record) && validString (ApiName record) &&
  inInt64 (Count record) && inInt64 (Timestamp record).

Definition encodableEntry (entry : LastCount) : bool :=
  validString (Date entry) && inInt64 (DateCount entry).

Definition encodable (exportData : ExportData) : bool :=
  forallb encodableRecord (Results exportData) &&
  forallb encodableEntry (LastRunCount exportData).

End Encodable.

(** The codec of the examples, for a world in which every string is read
    back as written: a state decodes when its integers fit. *)
Definition decodeChecked (doc : Document) : option ExportData :=
  match doc with
  | Garbage _ => None
  | Json exportData =>
      if encodable (fun _ => true) exportData then Some exportData else None
  end.

(** * Properties *)

(** ** Strings *)

Section StringFacts.

Import strings.

Lemma append_nil_l (t : string) : "" +:+ t = t.
Proof. reflexivity. Qed.

Lemma append_cons (a : Ascii.ascii) (s t : string) :
  String a s +:+ t = String a (s +:+ t).
Proof. reflexivity. Qed.

Lemma append_nil_r (s : string) : s +:+ "" = s.
Proof.
  induction s as [|a s IH]; [done|]. by rewrite append_cons, IH.
Qed.

Lemma append_assoc (s t u : string) : (s +:+ t) +:+ u = s +:+ (t +:+ u).
Proof.
  induction s as [|a s IH]; [done|]. by rewrite !append_cons, IH.
Qed.

Lemma len_append (s t : string) : len (s +:+ t) = (len s + len t)%nat.
Proof.
  induction s as [|a s IH]; [done|]. rewrite append_cons. simpl. by rewrite IH.
Qed.

Lemma sliceFrom_append (s t : string) : sliceFrom (s +:+ t) (len s) = t.
Proof.
  induction s as [|a s IH]; [by destruct t|]. by rewrite append_cons.
Qed.

Lemma HasPrefix_spec (s prefix : string) :
  HasPrefix s prefix = true <-> exists t, s = prefix +:+ t.
Proof.
  revert s. induction prefix as [|p prefix IH]; intros s; simpl.
  - split; [intros _; by exists s|done].
  - destruct s as [|a s].
    + split; [done|intros [t Ht]; discriminate].
    + rewrite andb_true_iff, IH. split.
      * intros [Ha [t ->]]. apply Ascii.eqb_eq in Ha as ->. by exists t.
      * intros [t Ht]. injection Ht as -> ->. split; [apply Ascii.eqb_refl|by exists t].
Qed.

Lemma HasPrefix_append (s prefix t : string) :
  HasPrefix s prefix = true -> HasPrefix (s +:+ t) prefix = true.
Proof.
  rewrite !HasPrefix_spec. intros [u ->]. exists (u +:+ t). apply append_assoc.
Qed.

Lemma HasSuffix_spec (s suffix : string) :
  HasSuffix s suffix = true <-> exists t, s = t +:+ suffix.
Proof.
  unfold HasSuffix. rewrite andb_true_iff, Nat.leb_le, String.eqb_eq. split.
  - intros [Hle Hs]. revert Hle Hs. generalize (len suffix) as n. intros n.
    revert n. induction s as [|a s IH]; intros n Hle Hs; simpl in *.
    + assert (n = O) as -> by lia. simpl in Hs. by exists "".
    + destruct (decide (n = S (len s))) as [->|Hne].
      * rewrite Nat.sub_diag in Hs. simpl in Hs. by exists "".
      * replace (S (len s) - n)%nat with (S (len s - n)) in Hs by lia. simpl in Hs.
        destruct (IH n) as [t Ht]; [lia|done|]. exists (String a t). by rewrite append_cons, <- Ht.
  - intros [t ->]. rewrite len_append. split; [lia|].
    replace (len t + len suffix - len suffix)%nat with (len t) by lia.
    apply sliceFrom_append.
Qed.

Lemma Index_range (s substr : string) : -1 <= Index s substr <= Z.of_nat (len s).
Proof.
  induction s as [|a s IH]; simpl.
  - destruct (HasPrefix "" substr); lia.
  - destruct (HasPrefix (String a s) substr); [lia|].
    destruct (Z.eqb_spec (Index s substr) (-1)); lia.
Qed.

Lemma Contains_here (s substr : string) :
  HasPrefix s substr = true -> Contains s substr = true.
Proof. unfold Contains. destruct s; simpl; intros ->; done. Qed.

Lemma Contains_cons (a : Ascii.ascii) (s substr : string) :
  Contains (String a s) substr = HasPrefix (String a s) substr || Contains s substr.
Proof.
  unfold Contains. cbn [Index]. destruct (HasPrefix (String a s) substr); [done|].
  pose proof (Index_range s substr).
  destruct (Z.eqb_spec (Index s substr) (-1)) as [->|Hne]; simpl; [done|].
  apply eq_true_iff_eq. rewrite !Z.leb_le. lia.
Qed.

Lemma Contains_spec (s substr : string) :
  Contains s substr = true <-> exists pre post, s = pre +:+ substr +:+ post.
Proof.
  induction s as [|a s IH].
  - unfold Contains. simpl. destruct (HasPrefix "" substr) eqn:Hp.
    + split; [intros _|done]. apply HasPrefix_spec in Hp as [t Ht]. by exists "", t.
    + split; [done|]. intros (pre & post & H). destruct pre; [|discriminate].
      simpl in H. assert (HasPrefix "" substr = true); [|congruence].
      apply HasPrefix_spec. by exists post.
  - rewrite Contains_cons, orb_true_iff, IH, HasPrefix_spec. split.
    + intros [[t Ht]|(pre & post & ->)].
      * by exists "", t.
      * by exists (String a pre), post.
    + intros (pre & post & H). destruct pre as [|b pre]; simpl in H.
      * left. by exists post.
      * injection H as -> ->. right. by exists pre, post.
Qed.

Lemma Contains_append (s substr t : string) :
  Contains s substr = true -> Contains (s +:+ t) substr = true.
Proof.
  rewrite !Contains_spec. intros (pre & post & ->). exists pre, (post +:+ t).
  by rewrite !append_assoc.
Qed.

(** The offset of the first line feed. *)
Lemma Index_first_line (line rest : string) :
  Contains line NL = false ->
  Index (line +:+ NL +:+ rest) NL = Z.of_nat (len line).
Proof.
  induction line as [|a line IH]; intros Hno.
  - done.
  - rewrite Contains_cons in Hno. apply orb_false_iff in Hno as [Hhd Hno].
    rewrite append_cons. cbn [Index]. unfold NL in Hhd |- *. cbn [HasPrefix] in Hhd |- *.
    rewrite andb_true_r in Hhd |- *. rewrite Hhd. fold NL.
    rewrite (IH Hno). destruct (Z.eqb_spec (Z.of_nat (len line)) (-1)); [lia|].
    cbn [len]. lia.
Qed.

Lemma Contains_NL_append (line rest : string) :
  Contains (line +:+ NL +:+ rest) NL = true.
Proof. apply Contains_spec. by exists line, rest. Qed.

End StringFacts.

(** ** The count query *)

Section SkipFacts.

Import strings.

Lemma sliceFrom_append_more (s t : string) (n : nat) :
  sliceFrom (s +:+ t) (len s + n) = sliceFrom t n.
Proof.
  induction s as [|a s IH]; [done|]. by rewrite append_cons.
Qed.

(** With a marker somewhere in it and a line feed at offset [index], the
    output loses its first [index + 1] bytes. *)
Lemma skip_first_line (line rest : string) :
  Contains (line +:+ NL +:+ rest) RAQUO = true \/
  Contains (line +:+ NL +:+ rest) "update available" = true ->
  Contains line NL = false ->
  skipFirstLineIfNeeded (line +:+ NL +:+ rest) = rest.
Proof.
  intros Hmark Hline. unfold skipFirstLineIfNeeded.
  replace (Contains (line +:+ NL +:+ rest) RAQUO
           || Contains (line +:+ NL +:+ rest) "update available") with true
    by (symmetry; apply orb_true_iff; exact Hmark).
  rewrite Index_first_line by done.
  destruct (Z.eqb_spec (Z.of_nat (len line)) (-1)) as [|_]; [lia|]. simpl negb. cbv iota.
  replace (Z.to_nat (Z.of_nat (len line) + 1)) with (len line + 1)%nat by lia.
  rewrite sliceFrom_append_more. reflexivity.
Qed.

Lemma skip_nothing (output : string) :
  Contains output RAQUO = false ->
  Contains output "update available" = false ->
  skipFirstLineIfNeeded output = output.
Proof. intros H1 H2. unfold skipFirstLineIfNeeded. by rewrite H1, H2. Qed.

(** Without a line feed there is no first line to drop. *)
Lemma skip_single_line (output : string) :
  Contains output NL = false -> skipFirstLineIfNeeded output = output.
Proof.
  intros Hno. unfold skipFirstLineIfNeeded.
  destruct (_ || _); [|done].
  unfold Contains in Hno. pose proof (Index_range output NL).
  apply Z.leb_gt in Hno. by replace (Index output NL) with (-1) by lia.
Qed.

End SkipFacts.

Section CountQueryFacts.

Variable float64 : Type.
Variable float64ToInt : float64 -> Z.
Variable jsonUnmarshal : string -> option (gmap string (GoValue float64)).
Variable sf : list string -> string * bool.

(** When the command ends well, [queryCount] returns [n] exactly when the
    output, after [skipFirstLineIfNeeded], decodes to an object whose
    [result] is an object whose [totalSize] is a number that converts to
    [n]. *)
Lemma queryCount_Ok (cmdArgs : list string) (output : string) (n : Z) :
  sf cmdArgs = (output, true) ->
  queryCount float64 float64ToInt jsonUnmarshal sf cmdArgs = Ok n <->
  exists jsonData result totalSize,
    jsonUnmarshal (skipFirstLineIfNeeded output) = Some jsonData /\
    jsonData !! "result" = Some (VMap result) /\
    result !! "totalSize" = Some (VFloat64 totalSize) /\
    n = float64ToInt totalSize.
Proof.
  intros Hsf. unfold queryCount. rewrite Hsf. simpl negb. cbv iota.
  split.
  - destruct (jsonUnmarshal _) as [jsonData|]; [|done].
    destruct (jsonData !! "result") as [[| | | | |result]|] eqn:Hr; try done.
    destruct (result !! "totalSize") as [[| |totalSize| | |]|] eqn:Ht; try done.
    intros [= <-]. by exists jsonData, result, totalSize.
  - intros (jsonData & result & totalSize & -> & -> & -> & ->). done.
Qed.

Lemma queryCount_command_failed (cmdArgs : list string) (output : string) :
  sf cmdArgs = (output, false) -> queryCount float64 float64ToInt jsonUnmarshal sf cmdArgs = Err (CommandFailed output).
Proof. intros Hsf. unfold queryCount. by rewrite Hsf. Qed.

(** C6.  The count is the [result.totalSize] of the JSON output; an output
    that starts with an advisory line (one that holds the marker or the
    words "update available") is parsed without that line, which ends with
    the first line feed of the output; an output that holds neither marker
    is parsed as it is. *)
Theorem queryCount_totalSize_after_advisory_line :
  (forall cmdArgs output n,
     sf cmdArgs = (output, true) ->
     queryCount float64 float64ToInt jsonUnmarshal sf cmdArgs = Ok n <->
     exists jsonData result totalSize,
       jsonUnmarshal (skipFirstLineIfNeeded output) = Some jsonData /\
       jsonData !! "result" = Some (VMap result) /\
       result !! "totalSize" = Some (VFloat64 totalSize) /\
       n = float64ToInt totalSize) /\
  (forall line rest,
     strings.Contains line RAQUO = true \/
     strings.Contains line "update available" = true ->
     strings.Contains line NL = false ->
     skipFirstLineIfNeeded (line +:+ NL +:+ rest) = rest) /\
  (forall output,
     strings.Contains output RAQUO = false ->
     strings.Contains output "update available" = false ->
     skipFirstLineIfNeeded output = output).
Proof.
  split; [|split].
  - intros cmdArgs output n. apply queryCount_Ok.
  - intros line rest Hmark Hline. apply skip_first_line; [|done].
    destruct Hmark as [H|H]; [left|right]; by apply Contains_append.
  - apply skip_nothing.
Qed.

End CountQueryFacts.

(** ** Go [int] arithmetic *)

Lemma wrap64_range (z : Z) : - 2 ^ 63 <= wrap64 z < 2 ^ 63.
Proof. unfold wrap64. pose proof (Z.mod_pos_bound (z + 2 ^ 63) (2 ^ 64)). lia. Qed.

Lemma wrap64_small (z : Z) : - 2 ^ 63 <= z < 2 ^ 63 -> wrap64 z = z.
Proof. intros H. unfold wrap64. rewrite Z.mod_small; lia. Qed.

Lemma wrap64_idemp (z : Z) : wrap64 (wrap64 z) = wrap64 z.
Proof. apply wrap64_small, wrap64_range. Qed.

Lemma wrap64_add_l (a b : Z) : wrap64 (wrap64 a + b) = wrap64 (a + b).
Proof.
  unfold wrap64.
  replace ((a + 2 ^ 63) mod 2 ^ 64 - 2 ^ 63 + b + 2 ^ 63)
    with ((a + 2 ^ 63) mod 2 ^ 64 + b) by lia.
  rewrite Zplus_mod_idemp_l. f_equal. f_equal. lia.
Qed.

Lemma wrap64_add_r (a b : Z) : wrap64 (a + wrap64 b) = wrap64 (a + b).
Proof. rewrite (Z.add_comm a), wrap64_add_l. f_equal. lia. Qed.

(** ** The aggregator *)

Section AggregatorFacts.

Variable dateOf : Z -> string.

#[local] Abbreviation step := (countRecord dateOf).
#[local] Abbreviation date := (dateKey dateOf).

Lemma seenAt_fresh_date processed d0 d n :
  processed !! d0 = None ->
  seenAt (<[d0 := ∅]> processed) d n = seenAt processed d n.
Proof.
  intros Hnone. unfold seenAt.
  destruct (decide (d0 = d)) as [->|Hne].
  - by rewrite lookup_insert_eq, Hnone.
  - by rewrite lookup_insert_ne.
Qed.

Lemma countRecord_counts st record :
  (step st record).1 =
  if seenRecord dateOf st record then st.1
  else <[date record := int_add (countAt st.1 (date record)) (Count record)]> st.1.
Proof.
  destruct st as [counts processed]. unfold countRecord, seenRecord, dateKey. simpl.
  destruct (processed !! dateOf (Timestamp record)) eqn:Hd.
  - by destruct (seenAt processed _ _).
  - rewrite seenAt_fresh_date by done. by destruct (seenAt processed _ _).
Qed.

Lemma countRecord_seen st record d n :
  seenAt (step st record).2 d n =
  seenAt st.2 d n || bool_decide (d = date record ∧ n = QualifiedApiName record).
Proof.
  destruct st as [counts processed]. unfold countRecord, dateKey. simpl.
  set (d0 := dateOf (Timestamp record)).
  set (processed' := match processed !! d0 with
                     | Some _ => processed
                     | None => <[d0 := ∅]> processed
                     end).
  assert (Hsame : forall d' n', seenAt processed' d' n' = seenAt processed d' n').
  { intros d' n'. unfold processed'. destruct (processed !! d0) eqn:Hd; [done|].
    by apply seenAt_fresh_date. }
  destruct (seenAt processed' d0 (QualifiedApiName record)) eqn:Hseen; simpl.
  - rewrite Hsame. case_bool_decide as Hk; [|by rewrite orb_false_r].
    destruct Hk as [-> ->]. rewrite Hsame in Hseen. by rewrite Hseen.
  - unfold seenAt at 1. destruct (decide (d0 = d)) as [<-|Hne].
    + rewrite lookup_insert_eq. simpl.
      destruct (decide (QualifiedApiName record = n)) as [<-|Hn].
      * rewrite lookup_insert_eq. simpl. rewrite bool_decide_eq_true_2 by done.
        by rewrite orb_true_r.
      * rewrite lookup_insert_ne by done.
        rewrite bool_decide_eq_false_2 by (intros [_ ?]; congruence).
        rewrite orb_false_r. rewrite <- Hsame. done.
    + rewrite lookup_insert_ne by done.
      rewrite bool_decide_eq_false_2 by (intros [? _]; congruence).
      rewrite orb_false_r. rewrite <- Hsame. done.
Qed.

Lemma countRecord_agree st1 st2 record :
  agree st1 st2 -> agree (step st1 record) (step st2 record).
Proof.
  intros [Hc Hs]. split.
  - rewrite !countRecord_counts. unfold seenRecord. by rewrite Hs, Hc.
  - intros d n. by rewrite !countRecord_seen, Hs.
Qed.

Lemma foldl_agree records st1 st2 :
  agree st1 st2 -> agree (foldl step st1 records) (foldl step st2 records).
Proof.
  revert st1 st2. induction records as [|r records IH]; intros st1 st2 H; simpl; [done|].
  apply IH. by apply countRecord_agree.
Qed.

(** A record whose object was already counted on its date changes nothing
    that a later iteration reads. *)
Lemma countRecord_already_seen st record :
  seenRecord dateOf st record = true -> agree (step st record) st.
Proof.
  intros H. split.
  - by rewrite countRecord_counts, H.
  - intros d n. rewrite countRecord_seen. case_bool_decide as Hk; [|by rewrite orb_false_r].
    destruct Hk as [-> ->]. unfold seenRecord in H. by rewrite H.
Qed.

(** Once seen, always seen. *)
Lemma foldl_seen_mono records st d n :
  seenAt st.2 d n = true -> seenAt (foldl step st records).2 d n = true.
Proof.
  revert st. induction records as [|r records IH]; intros st H; simpl; [done|].
  apply IH. by rewrite countRecord_seen, H.
Qed.

Lemma countRecord_marks_seen st record :
  seenRecord dateOf (step st record) record = true.
Proof.
  unfold seenRecord. rewrite countRecord_seen.
  rewrite bool_decide_eq_true_2 by done. apply orb_true_r.
Qed.

(** *** The loop against the words of the specification *)

Lemma loopInvariant_init : loopInvariant (∅, ∅).
Proof.
  split.
  - intros d c H. simpl in H. by rewrite lookup_empty in H.
  - intros d n H. unfold seenAt in H. simpl in H. by rewrite lookup_empty in H.
Qed.

Lemma loopInvariant_step st record :
  loopInvariant st -> loopInvariant (step st record).
Proof.
  intros [Hrange Hsome]. split.
  - intros d c. rewrite countRecord_counts.
    destruct (seenRecord dateOf st record); [apply Hrange|].
    destruct (decide (date record = d)) as [<-|Hne].
    + rewrite lookup_insert_eq. intros [= <-]. apply wrap64_idemp.
    + rewrite lookup_insert_ne by done. apply Hrange.
  - intros d n. rewrite countRecord_seen, countRecord_counts, orb_true_iff.
    intros [Hseen|Hnew].
    + destruct (seenRecord dateOf st record); [by eapply Hsome|].
      destruct (decide (date record = d)) as [<-|Hne].
      * rewrite lookup_insert_eq. by eexists.
      * rewrite lookup_insert_ne by done. by eapply Hsome.
    + apply bool_decide_eq_true in Hnew as [-> ->].
      destruct (seenRecord dateOf st record) eqn:Hs; [by eapply Hsome|].
      rewrite lookup_insert_eq. by eexists.
Qed.

Lemma loopInvariant_foldl records st :
  loopInvariant st -> loopInvariant (foldl step st records).
Proof.
  revert st. induction records as [|r records IH]; intros st H; simpl; [done|].
  by apply IH, loopInvariant_step.
Qed.

Lemma countAt_in_range st d : loopInvariant st -> wrap64 (countAt st.1 d) = countAt st.1 d.
Proof.
  intros [Hrange _]. unfold countAt. destruct (st.1 !! d) eqn:H; simpl; [by eapply Hrange|done].
Qed.

Lemma countRecord_countAt st record d :
  countAt (step st record).1 d =
  if seenRecord dateOf st record then countAt st.1 d
  else if decide (date record = d) then int_add (countAt st.1 d) (Count record)
  else countAt st.1 d.
Proof.
  rewrite countRecord_counts. destruct (seenRecord dateOf st record); [done|].
  unfold countAt at 1. destruct (decide (date record = d)) as [<-|Hne].
  - by rewrite lookup_insert_eq.
  - by rewrite lookup_insert_ne.
Qed.

Lemma onDate_cons d record records :
  onDate dateOf d (record :: records) =
  if decide (date record = d) then record :: onDate dateOf d records
  else onDate dateOf d records.
Proof. unfold onDate. rewrite filter_cons. by destruct (decide _). Qed.

(** The total the loop holds for [d] after [records], from any state. *)
Lemma foldl_countAt records st seen d :
  loopInvariant st ->
  (forall n, n ∈ seen <-> seenAt st.2 d n = true) ->
  countAt (foldl step st records).1 d =
  wrap64 (countAt st.1 d + sumCounts (firstSeenWins seen (onDate dateOf d records))).
Proof.
  revert st seen. induction records as [|r records IH]; intros st seen Hinv Hseen.
  - simpl. unfold sumCounts. simpl. rewrite Z.add_0_r. symmetry. by apply countAt_in_range.
  - cbn [foldl]. rewrite onDate_cons.
    destruct (decide (date r = d)) as [Hd|Hd].
    + cbn [firstSeenWins]. destruct (decide (QualifiedApiName r ∈ seen)) as [Hin|Hnotin].
      * assert (seenRecord dateOf st r = true) as Hs.
        { unfold seenRecord. rewrite Hd. by apply Hseen. }
        rewrite (IH _ seen); [|by apply loopInvariant_step|].
        -- by rewrite countRecord_countAt, Hs.
        -- intros n. rewrite Hseen. by destruct (countRecord_already_seen st r Hs) as [_ ->].
      * assert (seenRecord dateOf st r = false) as Hs.
        { unfold seenRecord. rewrite Hd. apply not_true_is_false. by rewrite <- Hseen. }
        rewrite (IH _ ({[QualifiedApiName r]} ∪ seen)); [|by apply loopInvariant_step|].
        -- rewrite countRecord_countAt, Hs. rewrite decide_True by done.
           unfold int_add, sumCounts. cbn [fmap list_fmap foldr].
           rewrite wrap64_add_l. f_equal. lia.
        -- intros n. rewrite countRecord_seen, orb_true_iff, <- Hseen, bool_decide_eq_true.
           rewrite elem_of_union, elem_of_singleton. naive_solver.
    + rewrite (IH _ seen); [|by apply loopInvariant_step|].
      * rewrite countRecord_countAt. destruct (seenRecord dateOf st r); [done|].
        by rewrite decide_False.
      * intros n. rewrite countRecord_seen, Hseen.
        rewrite bool_decide_eq_false_2 by (intros [? _]; congruence).
        by rewrite orb_false_r.
Qed.

(** A date has a total exactly when a record falls on it. *)
Lemma foldl_lookup_is_Some records st d :
  loopInvariant st ->
  is_Some ((foldl step st records).1 !! d) <->
  is_Some (st.1 !! d) ∨ exists r, r ∈ records ∧ date r = d.
Proof.
  revert st. induction records as [|r records IH]; intros st Hinv.
  - simpl. split; [by left|]. intros [H|(r & Hr & _)]; [done|]. by apply elem_of_nil in Hr.
  - cbn [foldl]. rewrite IH by (by apply loopInvariant_step).
    rewrite countRecord_counts. destruct (seenRecord dateOf st r) eqn:Hs.
    + split.
      * intros [H|(r' & Hr' & Hd)]; [by left|]. right. exists r'. split; [by right|done].
      * intros [H|(r' & Hr' & Hd)]; [by left|].
        apply elem_of_cons in Hr' as [->|Hr'].
        -- left. rewrite <- Hd. destruct Hinv as [_ Hsome]. by eapply Hsome.
        -- right. by exists r'.
    + split.
      * intros [H|(r' & Hr' & Hd)].
        -- destruct (decide (date r = d)) as [<-|Hne].
           ++ right. exists r. split; [by left|done].
           ++ left. by rewrite lookup_insert_ne in H.
        -- right. exists r'. split; [by right|done].
      * intros [H|(r' & Hr' & Hd)].
        -- left. destruct (decide (date r = d)) as [<-|Hne].
           ++ rewrite lookup_insert_eq. by eexists.
           ++ by rewrite lookup_insert_ne.
        -- apply elem_of_cons in Hr' as [->|Hr'].
           ++ left. rewrite Hd, lookup_insert_eq. by eexists.
           ++ right. by exists r'.
Qed.

Lemma onDate_elem d records r :
  r ∈ onDate dateOf d records <-> r ∈ records ∧ date r = d.
Proof. unfold onDate. rewrite list_elem_of_filter. tauto. Qed.

Lemma onDate_nonempty d records :
  onDate dateOf d records ≠ [] <-> exists r, r ∈ records ∧ date r = d.
Proof.
  split.
  - destruct (onDate dateOf d records) as [|r l] eqn:Hf; [done|]. intros _.
    exists r. apply onDate_elem. rewrite Hf. by left.
  - intros (r & Hr) Hnil. apply onDate_elem in Hr. rewrite Hnil in Hr.
    by apply elem_of_nil in Hr.
Qed.

(** [countsOf] computes the totals of the specification, as [int]s. *)
Lemma countsOf_dateTotal records d :
  countsOf dateOf records !! d =
  if decide (onDate dateOf d records = []) then None
  else Some (wrap64 (dateTotal dateOf d records)).
Proof.
  pose proof (foldl_lookup_is_Some records (∅, ∅) d loopInvariant_init) as Hsome.
  pose proof (foldl_countAt records (∅, ∅) ∅ d loopInvariant_init) as Htotal.
  fold (countRecords dateOf records) in Hsome, Htotal.
  fold (countsOf dateOf records) in Hsome, Htotal.
  destruct (decide (onDate dateOf d records = [])) as [Hnil|Hcons].
  - apply eq_None_not_Some. rewrite Hsome. intros [H|H].
    + simpl in H. rewrite lookup_empty in H. by destruct H.
    + apply onDate_nonempty in H. done.
  - assert (is_Some (countsOf dateOf records !! d)) as [c Hc].
    { apply Hsome. right. by apply onDate_nonempty. }
    rewrite Hc. f_equal. unfold countAt in Htotal. rewrite Hc in Htotal. simpl in Htotal.
    rewrite Htotal.
    + rewrite lookup_empty. simpl. done.
    + intros n. unfold seenAt. simpl. rewrite lookup_empty. simpl. rewrite lookup_empty.
      simpl. split; [by intros ?%elem_of_empty|done].
Qed.

Lemma countAt_countsOf records d :
  countAt (countsOf dateOf records) d = wrap64 (dateTotal dateOf d records).
Proof.
  unfold countAt. rewrite countsOf_dateTotal.
  destruct (decide (onDate dateOf d records = [])) as [Hnil|Hcons]; [|done].
  simpl. unfold dateTotal. by rewrite Hnil.
Qed.

(** *** What the caller sees *)

Lemma calculateCurCounts_nonempty now records :
  records ≠ [] ->
  calculateCurCounts dateOf now records =
  toLastCount <$> map_to_list (countsOf dateOf records).
Proof. by destruct records. Qed.

(** The entries of any list the function may return, for a batch that is
    not empty: one for every date that has a total. *)
Lemma curCounts_elem now records out entry :
  records ≠ [] ->
  curCounts dateOf now records out ->
  entry ∈ out <-> countsOf dateOf records !! Date entry = Some (DateCount entry).
Proof.
  intros Hne Hout. unfold curCounts in Hout. rewrite Hout.
  rewrite calculateCurCounts_nonempty by done.
  rewrite list_elem_of_fmap. split.
  - intros ([d c] & -> & Hin). by apply elem_of_map_to_list in Hin.
  - intros Hlook. exists (Date entry, DateCount entry). split; [by destruct entry|].
    by apply elem_of_map_to_list.
Qed.

(** *** First seen wins *)

Lemma firstSeenWins_drop_seen (n : string) records :
  forall seen,
    firstSeenWins ({[n]} ∪ seen) records =
    firstSeenWins seen (filter (fun r => QualifiedApiName r ≠ n) records).
Proof.
  induction records as [|r records IH]; intros seen; [done|].
  rewrite filter_cons. cbn [firstSeenWins].
  destruct (decide (QualifiedApiName r ≠ n)) as [Hne|Heq].
  - cbn [firstSeenWins].
    destruct (decide (QualifiedApiName r ∈ seen)) as [Hin|Hnotin].
    + rewrite decide_True by set_solver. apply IH.
    + rewrite decide_False by set_solver. f_equal.
      rewrite <- IH. f_equal. set_solver.
  - apply dec_stable in Heq. rewrite decide_True by set_solver. apply IH.
Qed.

(** The first record of an object is counted, and no other record of it. *)
Lemma sumCounts_first_of_name r1 before after :
  forall seen,
    QualifiedApiName r1 ∉ seen ->
    (forall r, r ∈ before -> QualifiedApiName r ≠ QualifiedApiName r1) ->
    sumCounts (firstSeenWins seen (before ++ r1 :: after)) =
    Count r1 +
    sumCounts (firstSeenWins seen
                 (filter (fun r => QualifiedApiName r ≠ QualifiedApiName r1)
                    (before ++ r1 :: after))).
Proof.
  induction before as [|a before IH]; intros seen Hseen Hbefore.
  - rewrite !app_nil_l, filter_cons. rewrite decide_False by (intros H; by apply H).
    cbn [firstSeenWins]. rewrite decide_False by done.
    rewrite firstSeenWins_drop_seen. done.
  - assert (QualifiedApiName a ≠ QualifiedApiName r1) as Ha by (apply Hbefore; by left).
    rewrite <- !app_comm_cons, filter_cons. rewrite decide_True by done.
    cbn [firstSeenWins].
    destruct (decide (QualifiedApiName a ∈ seen)) as [Hin|Hnotin].
    + apply IH; [done|]. intros r Hr. apply Hbefore. by right.
    + unfold sumCounts in *. cbn [fmap list_fmap foldr].
      rewrite (IH ({[QualifiedApiName a]} ∪ seen)).
      * lia.
      * set_solver.
      * intros r Hr. apply Hbefore. by right.
Qed.

Lemma onDate_filter_key r1 records :
  onDate dateOf (date r1) (filter (fun r => keyOf dateOf r ≠ keyOf dateOf r1) records) =
  filter (fun r => QualifiedApiName r ≠ QualifiedApiName r1) (onDate dateOf (date r1) records).
Proof.
  unfold onDate. rewrite !list_filter_filter. apply list_filter_iff.
  intros r. unfold keyOf. split.
  - intros [Hd Hk]. split; [|done]. intros Hn. apply Hk. by rewrite Hd, Hn.
  - intros [Hn Hd]. split; [done|]. intros [= _ H]. done.
Qed.

(** The total of a date is the count of the first record of an object plus
    the total of the records of the other objects. *)
Lemma dateTotal_first_of_key l1 r1 rest :
  (forall r, r ∈ l1 -> keyOf dateOf r ≠ keyOf dateOf r1) ->
  dateTotal dateOf (date r1) (l1 ++ r1 :: rest) =
  Count r1 +
  dateTotal dateOf (date r1)
    (filter (fun r => keyOf dateOf r ≠ keyOf dateOf r1) (l1 ++ r1 :: rest)).
Proof.
  intros Hfirst. unfold dateTotal. rewrite onDate_filter_key.
  unfold onDate. rewrite filter_app, filter_cons. rewrite decide_True by done.
  apply sumCounts_first_of_name; [set_solver|].
  intros r Hr. apply list_elem_of_filter in Hr as [Hd Hr].
  intros Hn. apply (Hfirst r Hr). unfold keyOf. by rewrite Hd, Hn.
Qed.

(** A later record of the same date and object leaves the totals as they are. *)
Lemma countsOf_later_duplicate l1 r1 l2 r2 l3 :
  keyOf dateOf r1 = keyOf dateOf r2 ->
  countsOf dateOf (l1 ++ r1 :: l2 ++ r2 :: l3) = countsOf dateOf (l1 ++ r1 :: l2 ++ l3).
Proof.
  intros [= Hd Hn]. unfold countsOf, countRecords.
  rewrite !foldl_app. cbn [foldl]. rewrite !foldl_app. cbn [foldl].
  set (st := foldl step (step (foldl step (∅, ∅) l1) r1) l2).
  assert (seenRecord dateOf st r2 = true) as Hseen.
  { unfold seenRecord. rewrite <- Hd, <- Hn. apply foldl_seen_mono.
    apply countRecord_marks_seen. }
  by destruct (foldl_agree l3 _ _ (countRecord_already_seen st r2 Hseen)) as [-> _].
Qed.

End AggregatorFacts.

(** C3.  Of two records of one calendar date and one qualified API name,
    the later one adds nothing to the current counts, whatever its count:
    the list computed with it is the list computed without it.  When no
    earlier record has that date and name, the entry of the date is, in
    every list the function may return, the count of the first record plus
    the total of the records of the other objects (as an [int]). *)
Theorem calculateCurCounts_first_seen_wins
    (dateOf : Z -> string) (now : Z)
    (l1 : list DeleteCountRecord) (r1 : DeleteCountRecord)
    (l2 : list DeleteCountRecord) (r2 : DeleteCountRecord)
    (l3 : list DeleteCountRecord) :
  dateOf (Timestamp r1) = dateOf (Timestamp r2) ->
  QualifiedApiName r1 = QualifiedApiName r2 ->
  (forall r, r ∈ l1 -> keyOf dateOf r ≠ keyOf dateOf r1) ->
  let records := l1 ++ r1 :: l2 ++ r2 :: l3 in
  let others := filter (fun r => keyOf dateOf r ≠ keyOf dateOf r1) records in
  calculateCurCounts dateOf now records =
    calculateCurCounts dateOf now (l1 ++ r1 :: l2 ++ l3) ∧
  forall out,
    curCounts dateOf now records out ->
    forall entry,
      entry ∈ out ∧ Date entry = dateOf (Timestamp r1) <->
      entry = {| Date := dateOf (Timestamp r1);
                 DateCount := int_add (Count r1)
                                (countAt (countsOf dateOf others) (dateOf (Timestamp r1))) |}.
Proof.
  intros Hd Hn Hfirst records others.
  assert (keyOf dateOf r1 = keyOf dateOf r2) as Hkey.
  { unfold keyOf, dateKey. by rewrite Hd, Hn. }
  assert (countsOf dateOf records !! dateOf (Timestamp r1) =
          Some (int_add (Count r1)
                  (countAt (countsOf dateOf others) (dateOf (Timestamp r1))))) as Htotal.
  { rewrite countsOf_dateTotal. fold (dateKey dateOf r1).
    rewrite decide_False.
    - unfold int_add. rewrite countAt_countsOf, wrap64_add_r. f_equal. f_equal.
      by apply dateTotal_first_of_key.
    - apply onDate_nonempty. exists r1. split; [|done]. unfold records. set_solver. }
  split.
  - unfold records. rewrite !calculateCurCounts_nonempty by (by destruct l1).
    by rewrite countsOf_later_duplicate.
  - intros out Hout entry.
    rewrite (curCounts_elem dateOf now records out entry); [|by destruct l1|done].
    split.
    + intros [Hlook Hdate]. rewrite Hdate, Htotal in Hlook. injection Hlook as Hc.
      destruct entry as [d c]. simpl in *. by subst.
    + intros ->. simpl. done.
Qed.

(** ** The export step *)

Section ExportFacts.

Variable dateOf : Z -> string.
Variable Bytes : Type.
Variable jsonDecode : Bytes -> option ExportData.
Variable jsonEncode : ExportData -> Bytes.

#[local] Abbreviation export := (exportResultsAsJSON dateOf Bytes jsonDecode jsonEncode).
#[local] Abbreviation load := (loadExportData Bytes jsonDecode).

Lemma curCounts_empty now out :
  curCounts dateOf now [] out <-> out = [zeroToday dateOf now].
Proof.
  unfold curCounts. simpl. split.
  - apply Permutation_singleton_r.
  - by intros ->.
Qed.

(** The step with the canonical order is one of the ways the step can go. *)
Lemma exportResultsAsJSON_run_sound fault file deleteCounts now :
  export fault file deleteCounts now
    (exportResultsAsJSON_run dateOf Bytes jsonDecode jsonEncode fault file deleteCounts now).
Proof.
  unfold exportResultsAsJSON, exportResultsAsJSON_run.
  destruct (load fault file); [|done..].
  exists (calculateCurCounts dateOf now deleteCounts). split; [|done].
  unfold curCounts. done.
Qed.

(** What a call writes when nothing fails. *)
Lemma export_no_fault file old deleteCounts now res :
  load NoFault file = Done old ->
  export NoFault file deleteCounts now res <->
  exists lastRunCount,
    curCounts dateOf now deleteCounts lastRunCount ∧
    res = (Done tt,
           Present (jsonEncode {| Results := Results old ++ deleteCounts;
                                  LastRunCount := lastRunCount |})).
Proof. intros Hload. unfold exportResultsAsJSON. rewrite Hload. done. Qed.

Lemma load_reload file old :
  reload jsonDecode file = Some old -> load NoFault file = Done old.
Proof. destruct file as [|content]; [done|]. simpl. by intros ->. Qed.

(** C5.  When the file is there and does not decode, the step ends in
    [log.Fatalf] and the file keeps its content: nothing was created or
    written.  (It ends there even sooner when the file cannot be opened.) *)
Theorem export_malformed_state_is_fatal
    (fault : Fault Bytes) (content : Bytes)
    (deleteCounts : list DeleteCountRecord) (now : Z) (res : Outcome unit * File Bytes) :
  jsonDecode content = None ->
  export fault (Present content) deleteCounts now res <->
  res = (Fatal (match fault with OpenFails => OpenFailed | _ => DecodeFailed end),
         Present content).
Proof.
  intros Hdecode. unfold exportResultsAsJSON. simpl. rewrite Hdecode.
  by destruct fault.
Qed.

(** C7.  With no file and no new record, the step writes the state with no
    results and the single entry of today with count 0. *)
Theorem export_empty_state (now : Z) (res : Outcome unit * File Bytes) :
  export NoFault Missing [] now res <->
  res = (Done tt,
         Present (jsonEncode {| Results := [];
                                LastRunCount := [ {| Date := dateOf now; DateCount := 0 |} ] |})).
Proof.
  rewrite (export_no_fault Missing {| Results := []; LastRunCount := [] |}) by done.
  split.
  - intros (lastRunCount & Hcur & ->). apply curCounts_empty in Hcur as ->. done.
  - intros ->. exists [zeroToday dateOf now]. split; [by apply curCounts_empty|done].
Qed.

(** C1, as the code has it.  The entries written as [lastRunCount] are the
    totals of the new batch alone: for a batch that is not empty, one entry
    for every date a new record falls on, with the first-seen-wins total of
    the new records of that date; for an empty batch, today with 0.  What
    was persisted before adds its records to [results] and nothing to
    [lastRunCount]. *)
Theorem export_lastRunCount_of_new_batch
    (file : File Bytes) (old : ExportData)
    (deleteCounts : list DeleteCountRecord) (now : Z) (res : Outcome unit * File Bytes) :
  load NoFault file = Done old ->
  export NoFault file deleteCounts now res ->
  exists lastRunCount,
    res = (Done tt,
           Present (jsonEncode {| Results := Results old ++ deleteCounts;
                                  LastRunCount := lastRunCount |})) ∧
    curCounts dateOf now deleteCounts lastRunCount ∧
    forall entry,
      entry ∈ lastRunCount <->
      if decide (deleteCounts = []) then entry = {| Date := dateOf now; DateCount := 0 |}
      else onDate dateOf (Date entry) deleteCounts ≠ [] ∧
           DateCount entry = wrap64 (dateTotal dateOf (Date entry) deleteCounts).
Proof.
  intros Hload Hres. apply (export_no_fault _ _ _ _ _ Hload) in Hres
    as (lastRunCount & Hcur & ->).
  exists lastRunCount. split; [done|]. split; [done|]. intros entry.
  destruct (decide (deleteCounts = [])) as [->|Hne].
  - apply curCounts_empty in Hcur as ->. by rewrite list_elem_of_singleton.
  - rewrite (curCounts_elem dateOf now deleteCounts lastRunCount entry Hne Hcur).
    rewrite countsOf_dateTotal.
    destruct (decide (onDate dateOf (Date entry) deleteCounts = [])) as [Hnil|Hcons].
    + split; [done|]. by intros [? _].
    + split.
      * intros [= <-]. done.
      * intros [_ ->]. done.
Qed.

Section Codec.

(** Reading back what was written gives the state that was written. *)
Hypothesis decode_encode : forall exportData, jsonDecode (jsonEncode exportData) = Some exportData.

(** C2, as the code has it.  A call with an empty batch keeps [results] and
    replaces [lastRunCount] by the entry of today with count 0; a second
    such call on the same calendar day leaves the file as the first one
    left it. *)
Theorem export_empty_batch_twice (file : File Bytes) (old : ExportData) (now1 now2 : Z) :
  reload jsonDecode file = Some old ->
  let file1 :=
    Present (jsonEncode {| Results := Results old;
                           LastRunCount := [ {| Date := dateOf now1; DateCount := 0 |} ] |}) in
  (forall res, export NoFault file [] now1 res <-> res = (Done tt, file1)) ∧
  (dateOf now2 = dateOf now1 ->
   forall res, export NoFault file1 [] now2 res <-> res = (Done tt, file1)).
Proof.
  intros Hold file1.
  assert (forall f s now res,
            reload jsonDecode f = Some s ->
            export NoFault f [] now res <->
            res = (Done tt, Present (jsonEncode {| Results := Results s;
                                                   LastRunCount := [zeroToday dateOf now] |})))
    as Hstep.
  { intros f s now res Hs. rewrite (export_no_fault f s) by (by apply load_reload).
    rewrite app_nil_r. split.
    - intros (lastRunCount & Hcur & ->). by apply curCounts_empty in Hcur as ->.
    - intros ->. exists [zeroToday dateOf now]. split; [by apply curCounts_empty|done]. }
  split.
  - intros res. by apply Hstep.
  - intros Hday res. rewrite (Hstep file1 _ now2 res (decode_encode _)).
    simpl. unfold file1, zeroToday. by rewrite Hday.
Qed.

End Codec.

End ExportFacts.

(** ** Reading back what the export step wrote *)

Section RoundTrip.

Variable dateOf : Z -> string.
Variable Bytes : Type.
Variable jsonDecode : Bytes -> option ExportData.
Variable jsonEncode : ExportData -> Bytes.
Variable validString : string -> bool.

(** What is taken of [encoding/json]: a state it decodes holds only what it
    reads back as written, and such a state is read back as written. *)
Hypothesis decoded_encodable :
  forall content exportData,
    jsonDecode content = Some exportData -> encodable validString exportData = true.
Hypothesis decode_encode :
  forall exportData,
    encodable validString exportData = true ->
    jsonDecode (jsonEncode exportData) = Some exportData.

(** What is taken of [time.Format]: the date it renders is such a string. *)
Hypothesis dateOf_valid : forall ts, validString (dateOf ts) = true.

Lemma inInt64_wrap64 (z : Z) : inInt64 (wrap64 z) = true.
Proof.
  unfold inInt64. pose proof (wrap64_range z).
  apply andb_true_iff. split; [apply Z.leb_le|apply Z.ltb_lt]; lia.
Qed.

(** Every list [calculateCurCounts] may return can be read back. *)
Lemma curCounts_encodable now records out :
  curCounts dateOf now records out -> forallb (encodableEntry validString) out = true.
Proof.
  intros Hout. apply forallb_forall. intros entry Hin. apply list_elem_of_In in Hin.
  unfold encodableEntry. destruct records as [|r0 records].
  - apply curCounts_empty in Hout as ->. apply list_elem_of_singleton in Hin as ->.
    cbn. by rewrite dateOf_valid.
  - apply (curCounts_elem dateOf now (r0 :: records) out entry) in Hin; [|done|done].
    rewrite countsOf_dateTotal in Hin. destruct (decide _) as [|Hne]; [done|].
    injection Hin as <-. rewrite inInt64_wrap64, andb_true_r.
    apply onDate_nonempty in Hne as (r & _ & <-). apply dateOf_valid.
Qed.

Lemma loaded_encodable file old :
  loadExportData Bytes jsonDecode NoFault file = Done old ->
  forallb (encodableRecord validString) (Results old) = true.
Proof.
  destruct file as [|content]; simpl.
  - by intros [= <-].
  - destruct (jsonDecode content) as [d|] eqn:Hd; [|done]. intros [= <-].
    apply decoded_encodable in Hd. unfold encodable in Hd.
    by apply andb_true_iff in Hd as [? _].
Qed.

(** C8, as the code has it.  Take of the codec that it reads back as written
    the states it can decode.  Then, for a batch of such records, what the
    step writes reads back with the results the step put together: those
    that were persisted, followed by the batch, in their order and with
    their values; the totals the step computes and the dates it renders are
    always read back.  [lastRunCount] can be computed again from the batch
    at the same instant, not from [results]: the two agree when no result
    was persisted before. *)
Theorem export_reads_back_what_it_wrote
    (file : File Bytes) (old : ExportData)
    (deleteCounts : list DeleteCountRecord) (now : Z) (res : Outcome unit * File Bytes) :
  loadExportData Bytes jsonDecode NoFault file = Done old ->
  forallb (encodableRecord validString) deleteCounts = true ->
  exportResultsAsJSON dateOf Bytes jsonDecode jsonEncode NoFault file deleteCounts now res ->
  exists written,
    res.1 = Done tt ∧
    reload jsonDecode res.2 = Some written ∧
    Results written = Results old ++ deleteCounts ∧
    curCounts dateOf now deleteCounts (LastRunCount written) ∧
    (Results old = [] -> curCounts dateOf now (Results written) (LastRunCount written)).
Proof.
  intros Hload Hbatch Hres.
  apply (export_no_fault dateOf Bytes jsonDecode jsonEncode _ _ _ _ _ Hload) in Hres
    as (lastRunCount & Hcur & ->).
  exists {| Results := Results old ++ deleteCounts; LastRunCount := lastRunCount |}.
  split; [done|]. split.
  - apply decode_encode. unfold encodable. cbn [Results LastRunCount].
    rewrite forallb_app, (loaded_encodable file old Hload), Hbatch.
    by rewrite (curCounts_encodable now deleteCounts lastRunCount Hcur).
  - cbn [Results LastRunCount]. split; [done|]. split; [done|]. by intros ->.
Qed.

End RoundTrip.

(** ** The pipeline *)

Section SplitFacts.

Import strings.

Lemma Split_nonempty (s : string) (sep : Ascii.ascii) : Split s sep ≠ [].
Proof.
  destruct s as [|a s]; simpl; [done|].
  destruct (Ascii.eqb a sep); [done|]. by destruct (Split s sep).
Qed.

Lemma Split_cons (s : string) (sep : Ascii.ascii) :
  exists field fields, Split s sep = field :: fields.
Proof.
  pose proof (Split_nonempty s sep). destruct (Split s sep) as [|w ws]; [done|].
  by exists w, ws.
Qed.

(** The first field is a prefix of the line. *)
Lemma Split_hd_prefix (s : string) (sep : Ascii.ascii) :
  exists rest, s = hd "" (Split s sep) +:+ rest.
Proof.
  induction s as [|a s [rest IH]]; simpl.
  - by exists "".
  - destruct (Ascii.eqb a sep); simpl.
    + by exists (String a s).
    + destruct (Split s sep) as [|w ws] eqn:Hs; simpl in *.
      * by exists s.
      * exists rest. by rewrite append_cons, <- IH.
Qed.

Lemma primaryField_lookup (line : string) :
  Split line COMMA !! 0%nat = Some (primaryField line).
Proof.
  unfold primaryField. destruct (Split_cons line COMMA) as (w & ws & ->). done.
Qed.

Lemma primaryField_prefix (line prefix : string) :
  HasPrefix (primaryField line) prefix = true -> HasPrefix line prefix = true.
Proof.
  intros H. destruct (Split_hd_prefix line COMMA) as [rest Hrest].
  rewrite Hrest. by apply HasPrefix_append.
Qed.

End SplitFacts.

Section PipelineFacts.

Variable float64 : Type.
Variable float64ToInt : float64 -> Z.
Variable jsonUnmarshal : string -> option (gmap string (GoValue float64)).
Variable sf : list string -> string * bool.
Variable queries : string -> option string.
Variable clock : nat -> Z.

#[local] Abbreviation stageC :=
  (apiNameLine float64 float64ToInt jsonUnmarshal sf clock).
#[local] Abbreviation stageCs :=
  (processApiNames float64 float64ToInt jsonUnmarshal sf clock).
#[local] Abbreviation stageB :=
  (developerNameLine float64 float64ToInt jsonUnmarshal sf queries clock).
#[local] Abbreviation stageBs :=
  (processDeveloperNames float64 float64ToInt jsonUnmarshal sf queries clock).
#[local] Abbreviation stageA :=
  (deletedFieldLine float64 float64ToInt jsonUnmarshal sf queries clock).
#[local] Abbreviation stageAs :=
  (processDeletedFields float64 float64ToInt jsonUnmarshal sf queries clock).

(** *** The monad *)

Lemma bind_run {A B : Type} (m : Run A) (k : A -> Run B) (p : Process) :
  (m ≫= k) p =
  match m p with
  | Done (a, p') => k a p'
  | Fatal e => Fatal e
  | Panic => Panic
  end.
Proof. done. Qed.

Lemma ret_run {A : Type} (a : A) (p : Process) : (mret a : Run A) p = Done (a, p).
Proof. done. Qed.

Lemma index_Some data i field p :
  data !! i = Some field -> index data i p = Done (field, p).
Proof. unfold index. by intros ->. Qed.

Lemma index_None data i p : data !! i = None -> index data i p = Panic.
Proof. unfold index. by intros ->. Qed.

Lemma forEach_cons {A : Type} (x : A) (xs : list A) (body : A -> Run unit) p :
  forEach (x :: xs) body p =
  match body x p with
  | Done (_, p') => forEach xs body p'
  | Fatal e => Fatal e
  | Panic => Panic
  end.
Proof. cbn [forEach]. rewrite bind_run. by destruct (body x p) as [[[] ?]| |]. Qed.

Lemma forEach_app {A : Type} (xs ys : list A) (body : A -> Run unit) p :
  forEach (xs ++ ys) body p =
  match forEach xs body p with
  | Done (_, p') => forEach ys body p'
  | Fatal e => Fatal e
  | Panic => Panic
  end.
Proof.
  revert p. induction xs as [|x xs IH]; intros p; [done|].
  rewrite <- app_comm_cons, !forEach_cons.
  destruct (body x p) as [[[] p']| |]; [apply IH|done..].
Qed.

(** A loop that returns ran every body to its return. *)
Lemma forEach_Done {A : Type} (xs : list A) (body : A -> Run unit) p p' :
  forEach xs body p = Done (tt, p') ->
  forall x, x ∈ xs -> exists q q', body x q = Done (tt, q').
Proof.
  revert p. induction xs as [|y xs IH]; intros p Hrun x Hx.
  - by apply elem_of_nil in Hx.
  - rewrite forEach_cons in Hrun. destruct (body y p) as [[[] q']| |] eqn:Hy; [|done..].
    apply elem_of_cons in Hx as [->|Hx]; [by exists p, q'|by eapply IH].
Qed.

(** *** The records a piece of the program appends *)

Lemma appends_ret P : appends P (mret tt).
Proof.
  intros p u p' [= <- <-]. exists []. by rewrite app_nil_r.
Qed.

Lemma appends_bind {A : Type} P (m : Run A) (k : A -> Run unit) :
  (forall p a p', m p = Done (a, p') -> deleteCounts p' = deleteCounts p) ->
  (forall a, appends P (k a)) ->
  appends P (m ≫= k).
Proof.
  intros Hm Hk p u p'. rewrite bind_run.
  destruct (m p) as [[a q]| |] eqn:Hmp; [|done..].
  intros Hrun. destruct (Hk a q u p' Hrun) as (new & Hnew & HP).
  exists new. by rewrite Hnew, (Hm p a q Hmp).
Qed.

Lemma appends_forEach {A : Type} P (xs : list A) (body : A -> Run unit) :
  (forall x, x ∈ xs -> appends P (body x)) ->
  appends P (forEach xs body).
Proof.
  induction xs as [|x xs IH]; intros Hbody.
  - apply appends_ret.
  - intros p u p'. rewrite forEach_cons.
    destruct (body x p) as [[[] q]| |] eqn:Hx; [|done..]. intros Hrun.
    destruct (Hbody x (list_elem_of_here _ _) p tt q Hx) as (new1 & Hnew1 & HP1).
    destruct (IH (fun y Hy => Hbody y (list_elem_of_further _ _ _ Hy)) q u p' Hrun)
      as (new2 & Hnew2 & HP2).
    exists (new1 ++ new2). split.
    + by rewrite Hnew2, Hnew1, app_assoc.
    + by apply Forall_app.
Qed.

Lemma appends_weaken (P Q : DeleteCountRecord -> Prop) m :
  (forall r, P r -> Q r) -> appends P m -> appends Q m.
Proof.
  intros HPQ Hm p u p' Hrun. destruct (Hm p u p' Hrun) as (new & Hnew & HP).
  exists new. split; [done|]. by eapply Forall_impl.
Qed.

Lemma appends_appendRecord (P : DeleteCountRecord -> Prop) record :
  P record -> appends P (appendRecord record).
Proof.
  intros HP p u p' [= <- <-]. exists [record]. split; [done|]. by apply Forall_singleton.
Qed.

Lemma index_pure data i p a p' :
  index data i p = Done (a, p') -> deleteCounts p' = deleteCounts p.
Proof. unfold index. destruct (data !! i); [by intros [= _ <-]|done]. Qed.

Lemma orFatal_pure {A : Type} (r : Result A) p a p' :
  orFatal r p = Done (a, p') -> deleteCounts p' = deleteCounts p.
Proof. unfold orFatal. destruct r; [by intros [= _ <-]|done]. Qed.

Lemma timeNowUnix_pure p a p' :
  timeNowUnix clock p = Done (a, p') -> deleteCounts p' = deleteCounts p.
Proof. unfold timeNowUnix. by intros [= _ <-]. Qed.

(** Every record of stage C carries the two names it was called with. *)
Lemma stageC_appends developerName tableEnumOrId org apiLine :
  appends (fun r => DeveloperName r = developerName ∧ TableEnumOrId r = tableEnumOrId)
    (stageC developerName tableEnumOrId org apiLine).
Proof.
  unfold apiNameLine. destruct (String.eqb apiLine ""); [apply appends_ret|].
  apply appends_bind; [apply index_pure|]. intros apiData2.
  destruct (String.eqb apiData2 "QualifiedApiName"); [apply appends_ret|].
  apply appends_bind; [apply orFatal_pure|]. intros count.
  apply appends_bind; [apply timeNowUnix_pure|]. intros timestamp.
  apply appends_bind; [apply index_pure|]. intros apiData1.
  by apply appends_appendRecord.
Qed.

Lemma stageB_appends developerName tableEnumOrId org devLine :
  appends (fun r => DeveloperName r = developerName ∧ TableEnumOrId r = tableEnumOrId)
    (stageB developerName tableEnumOrId org devLine).
Proof.
  unfold developerNameLine. destruct (String.eqb devLine ""); [apply appends_ret|].
  apply appends_bind; [apply index_pure|]. intros apiData1.
  destruct (String.eqb apiData1 "DeveloperName"); [apply appends_ret|].
  apply appends_bind; [apply orFatal_pure|]. intros apiNameCSV.
  apply appends_forEach. intros apiLine _. apply stageC_appends.
Qed.

Lemma stageBs_appends devNameCSV developerName tableEnumOrId org :
  appends (fun r => DeveloperName r = developerName ∧ TableEnumOrId r = tableEnumOrId)
    (stageBs devNameCSV developerName tableEnumOrId org).
Proof. apply appends_forEach. intros devLine _. apply stageB_appends. Qed.

(** *** Stage A, case by case *)

Lemma lookup_fieldCount (line : string) (i : nat) :
  strings.Split line COMMA !! i = None <-> (fieldCount line <= i)%nat.
Proof. unfold fieldCount. apply lookup_ge_None. Qed.

Lemma stageA_skipped org line p :
  String.eqb line "" || isHeader line = true -> stageA org line p = Done (tt, p).
Proof. unfold deletedFieldLine, isHeader. by intros ->. Qed.

Lemma stageA_not_deleted org line p :
  String.eqb line "" || isHeader line = false ->
  strings.HasSuffix (primaryField line) "_del" = false ->
  stageA org line p =
  match strings.Split line COMMA !! 1%nat with
  | Some _ => Done (tt, p)
  | None => Panic
  end.
Proof.
  unfold deletedFieldLine, isHeader. intros -> Hsuffix. cbv iota.
  rewrite bind_run, (index_Some _ _ _ _ (primaryField_lookup line)). cbv beta iota.
  rewrite Hsuffix. cbv beta iota delta [negb]. rewrite bind_run. unfold index.
  by destruct (strings.Split line COMMA !! 1%nat).
Qed.

Lemma developerNamesOf_pure org data0 data1 p a p' :
  developerNamesOf sf queries org data0 data1 p = Done (a, p') -> deleteCounts p' = deleteCounts p.
Proof.
  unfold developerNamesOf. destruct (strings.HasPrefix data1 "01I").
  - apply orFatal_pure.
  - by intros [= _ <-].
Qed.

Lemma stageA_dispatched org line p :
  String.eqb line "" || isHeader line = false ->
  strings.HasSuffix (primaryField line) "_del" = true ->
  stageA org line p =
  match strings.Split line COMMA !! 1%nat with
  | Some data1 =>
      (developerNamesOf sf queries org (primaryField line) data1 ≫= fun devNameCSV =>
       stageBs devNameCSV (primaryField line) data1 org) p
  | None => Panic
  end.
Proof.
  unfold deletedFieldLine, isHeader. intros -> Hsuffix. cbv iota.
  rewrite bind_run, (index_Some _ _ _ _ (primaryField_lookup line)). cbv beta iota.
  rewrite Hsuffix. cbv beta iota delta [negb]. rewrite bind_run. unfold index.
  destruct (strings.Split line COMMA !! 1%nat) as [data1|]; [|done].
  unfold developerNamesOf. by destruct (strings.HasPrefix data1 "01I").
Qed.

Lemma eligible_true line :
  eligible line = true <->
  String.eqb line "" || isHeader line = false ∧
  strings.HasSuffix (primaryField line) "_del" = true.
Proof.
  unfold eligible. rewrite !andb_true_iff, !negb_true_iff, orb_false_iff. tauto.
Qed.

Lemma eligible_false line :
  eligible line = false <->
  String.eqb line "" || isHeader line = true ∨
  strings.HasSuffix (primaryField line) "_del" = false.
Proof.
  rewrite <- not_true_iff_false, eligible_true.
  destruct (String.eqb line "" || isHeader line), (strings.HasSuffix _ _); naive_solver.
Qed.

(** Every record of stage A carries the primary field of an eligible row. *)
Lemma stageA_appends org line :
  appends (fun r => eligible line = true ∧ DeveloperName r = primaryField line)
    (stageA org line).
Proof.
  destruct (String.eqb line "" || isHeader line) eqn:Hskip.
  - intros p u p'. rewrite stageA_skipped by done. apply appends_ret.
  - destruct (strings.HasSuffix (primaryField line) "_del") eqn:Hsuffix.
    + intros p u p'. rewrite stageA_dispatched by done.
      destruct (strings.Split line COMMA !! 1%nat) as [data1|]; [|done].
      revert p u p'. apply appends_bind; [apply developerNamesOf_pure|].
      intros devNameCSV. eapply appends_weaken; [|apply stageBs_appends].
      intros r [Hdev _]. split; [|done]. by apply eligible_true.
    + intros p u p'. rewrite stageA_not_deleted by done.
      destruct (strings.Split line COMMA !! 1%nat); [apply appends_ret|done].
Qed.

Lemma stageAs_appends deletedFieldsCSV org :
  appends (fun r => exists line,
             line ∈ strings.Split deletedFieldsCSV LF ∧
             eligible line = true ∧ DeveloperName r = primaryField line)
    (stageAs deletedFieldsCSV org).
Proof.
  apply appends_forEach. intros line Hline.
  eapply appends_weaken; [|apply stageA_appends]. intros r [? ?]. by exists line.
Qed.

(** The gate of stage A.  Stage A works on a row only when its primary
    field ends with [_del].  A header row is skipped; a row of at least two fields whose
    primary field lacks the suffix is skipped; no row that is not eligible
    ever leaves stage A with the state changed; and every record a run of
    the stage appends carries the primary field of an eligible row of the
    table. *)
Theorem stageA_processes_only_deleted_rows :
  (forall org line p,
     String.eqb line "" || isHeader line = true -> stageA org line p = Done (tt, p)) ∧
  (forall org line p,
     strings.HasSuffix (primaryField line) "_del" = false ->
     (2 <= fieldCount line)%nat ->
     stageA org line p = Done (tt, p)) ∧
  (forall org line p,
     eligible line = false ->
     stageA org line p = Done (tt, p) ∨ stageA org line p = Panic) ∧
  (forall deletedFieldsCSV org p p',
     stageAs deletedFieldsCSV org p = Done (tt, p') ->
     exists new,
       deleteCounts p' = deleteCounts p ++ new ∧
       Forall (fun r => exists line,
                 line ∈ strings.Split deletedFieldsCSV LF ∧
                 eligible line = true ∧
                 DeveloperName r = primaryField line ∧
                 strings.HasSuffix (DeveloperName r) "_del" = true) new).
Proof.
  split; [|split; [|split]].
  - apply stageA_skipped.
  - intros org line p Hsuffix Hcount.
    destruct (String.eqb line "" || isHeader line) eqn:Hskip; [by apply stageA_skipped|].
    rewrite stageA_not_deleted by done.
    destruct (strings.Split line COMMA !! 1%nat) eqn:H1; [done|].
    apply lookup_fieldCount in H1. lia.
  - intros org line p [Hskip|Hsuffix]%eligible_false; [left; by apply stageA_skipped|].
    destruct (String.eqb line "" || isHeader line) eqn:Hskip;
      [left; by apply stageA_skipped|].
    rewrite stageA_not_deleted by done.
    destruct (strings.Split line COMMA !! 1%nat); [by left|by right].
  - intros csv org p p' Hrun.
    destruct (stageAs_appends csv org p tt p' Hrun) as (new & Hnew & Hall).
    exists new. split; [done|]. eapply Forall_impl; [exact Hall|].
    intros r (line & Hline & Helig & Hdev). exists line.
    split; [done|]. split; [done|]. split; [done|].
    rewrite Hdev. by apply eligible_true in Helig as [_ ?].
Qed.

(** *** The fields a row must have *)

Lemma stageA_short org line p :
  line ≠ "" -> isHeader line = false -> (fieldCount line < 2)%nat ->
  stageA org line p = Panic.
Proof.
  intros Hline Hheader Hcount.
  assert (String.eqb line "" || isHeader line = false) as Hskip.
  { apply orb_false_iff. split; [by apply String.eqb_neq|done]. }
  assert (strings.Split line COMMA !! 1%nat = None) as H1
    by (apply lookup_fieldCount; lia).
  destruct (strings.HasSuffix (primaryField line) "_del") eqn:Hsuffix.
  - rewrite stageA_dispatched by done. by rewrite H1.
  - rewrite stageA_not_deleted by done. by rewrite H1.
Qed.

Lemma stageB_short developerName tableEnumOrId org devLine p :
  devLine ≠ "" -> (fieldCount devLine < 2)%nat ->
  stageB developerName tableEnumOrId org devLine p = Panic.
Proof.
  intros Hline Hcount. unfold developerNameLine.
  apply String.eqb_neq in Hline as ->.
  rewrite bind_run, index_None; [done|]. apply lookup_fieldCount. lia.
Qed.

Lemma stageC_panics developerName tableEnumOrId org apiLine p :
  apiLine ≠ "" ->
  stageC developerName tableEnumOrId org apiLine p = Panic <-> (fieldCount apiLine < 3)%nat.
Proof.
  intros Hline. unfold apiNameLine. apply String.eqb_neq in Hline as ->.
  rewrite bind_run. unfold index at 1.
  destruct (strings.Split apiLine COMMA !! 2%nat) as [apiData2|] eqn:H2.
  - assert (2 < fieldCount apiLine)%nat as Hcount
      by (apply lookup_lt_is_Some; by eexists).
    split; [|lia]. intros Hpanic. exfalso. revert Hpanic.
    destruct (String.eqb apiData2 "QualifiedApiName"); [done|].
    rewrite bind_run. unfold orFatal at 1. destruct (queryCount _ _ _ _ _); [|done].
    rewrite bind_run. unfold timeNowUnix at 1. rewrite bind_run. unfold index.
    destruct (strings.Split apiLine COMMA !! 1%nat) eqn:H1; [done|].
    apply lookup_fieldCount in H1. lia.
  - split; [|done]. intros _. apply lookup_fieldCount in H2. lia.
Qed.

(** C4.  The comment of line 161 and the log text of line 160 say that a
    row whose primary field lacks [_del] is skipped.  It is not when the row
    has no comma: the log call reads [data[1]] before the [continue], and
    the stage panics.  [Bar] is such a row, it is no header and not
    eligible, and [extractCSVData] keeps it in a decoded table. *)
Theorem stageA_row_without_suffix_and_comma_panics :
  (forall org line p,
     line ≠ "" -> isHeader line = false ->
     strings.HasSuffix (primaryField line) "_del" = false ->
     (fieldCount line < 2)%nat ->
     stageA org line p = Panic) ∧
  (forall org p,
     let table := "DeveloperName,TableEnumOrId" +:+ NL +:+ "Bar" +:+ NL in
     extractCSVData table = table ∧
     isHeader "Bar" = false ∧
     eligible "Bar" = false ∧
     stageA org "Bar" p = Panic ∧
     stageAs table org p = Panic).
Proof.
  split.
  - intros org line p Hline Hheader _ Hcount. by apply stageA_short.
  - intros org p table. split; [by vm_compute|]. by repeat split.
Qed.

(** C9.  The stages read [data[1]], [apiData[1]] and [apiData[2]] of a
    split row without looking at its length.  A row of stage A that is not
    empty and not a header panics when it has fewer than two fields, a row
    of stage B that is not empty when it has fewer than two, and a row of
    stage C that is not empty exactly when it has fewer than three.  The
    eligible row [Foo_del], which has no comma, is such a row.  So a stage
    that returns had the fields in every such row of its table. *)
Theorem stages_index_rows_without_bounds_check :
  (forall org line p,
     line ≠ "" -> isHeader line = false -> (fieldCount line < 2)%nat ->
     stageA org line p = Panic) ∧
  (forall developerName tableEnumOrId org devLine p,
     devLine ≠ "" -> (fieldCount devLine < 2)%nat ->
     stageB developerName tableEnumOrId org devLine p = Panic) ∧
  (forall developerName tableEnumOrId org apiLine p,
     apiLine ≠ "" ->
     stageC developerName tableEnumOrId org apiLine p = Panic <->
     (fieldCount apiLine < 3)%nat) ∧
  (forall org p,
     eligible "Foo_del" = true ∧ fieldCount "Foo_del" = 1%nat ∧
     stageAs "Foo_del" org p = Panic) ∧
  (forall deletedFieldsCSV org p p',
     stageAs deletedFieldsCSV org p = Done (tt, p') ->
     forall line,
       line ∈ strings.Split deletedFieldsCSV LF -> line ≠ "" -> isHeader line = false ->
       (2 <= fieldCount line)%nat) ∧
  (forall devNameCSV developerName tableEnumOrId org p p',
     stageBs devNameCSV developerName tableEnumOrId org p = Done (tt, p') ->
     forall devLine,
       devLine ∈ strings.Split devNameCSV LF -> devLine ≠ "" ->
       (2 <= fieldCount devLine)%nat) ∧
  (forall apiNameCSV developerName tableEnumOrId apiName org p p',
     stageCs apiNameCSV developerName tableEnumOrId apiName org p = Done (tt, p') ->
     forall apiLine,
       apiLine ∈ strings.Split apiNameCSV LF -> apiLine ≠ "" ->
       (3 <= fieldCount apiLine)%nat).
Proof.
  split; [apply stageA_short|]. split; [apply stageB_short|].
  split; [apply stageC_panics|]. split; [|split; [|split]].
  - intros org p. done.
  - intros csv org p p' Hrun line Hin Hline Hheader.
    destruct (forEach_Done _ _ _ _ Hrun line Hin) as (q & q' & Hbody).
    destruct (decide (fieldCount line < 2)%nat) as [Hshort|]; [|lia].
    by rewrite stageA_short in Hbody.
  - intros csv developerName tableEnumOrId org p p' Hrun line Hin Hline.
    destruct (forEach_Done _ _ _ _ Hrun line Hin) as (q & q' & Hbody).
    destruct (decide (fieldCount line < 2)%nat) as [Hshort|]; [|lia].
    by rewrite stageB_short in Hbody.
  - intros csv developerName tableEnumOrId apiName org p p' Hrun line Hin Hline.
    destruct (forEach_Done _ _ _ _ Hrun line Hin) as (q & q' & Hbody).
    destruct (decide (fieldCount line < 3)%nat) as [Hshort|]; [|lia].
    apply (stageC_panics developerName tableEnumOrId org line q Hline) in Hshort.
    congruence.
Qed.

(** C10.  Stage A takes for a header every line that begins with
    [DeveloperName]: a row whose primary field begins with these letters is
    skipped, whatever follows them, and the table gives what it gives
    without the row. *)
Theorem stageA_header_check_is_a_prefix_check (org line : string) :
  strings.HasPrefix (primaryField line) "DeveloperName" = true ->
  (forall p, stageA org line p = Done (tt, p)) ∧
  (forall deletedFieldsCSV before after p,
     strings.Split deletedFieldsCSV LF = before ++ line :: after ->
     stageAs deletedFieldsCSV org p = forEach (before ++ after) (stageA org) p).
Proof.
  intros Hprefix.
  assert (forall p, stageA org line p = Done (tt, p)) as Hskip.
  { intros p. apply stageA_skipped. unfold isHeader.
    rewrite (primaryField_prefix _ _ Hprefix). apply orb_true_r. }
  split; [done|]. intros csv before after p Hsplit.
  unfold processDeletedFields. rewrite Hsplit, !forEach_app.
  destruct (forEach before _ p) as [[[] q]| |]; [|done..].
  by rewrite forEach_cons, Hskip.
Qed.

End PipelineFacts.

(** * Worked examples *)

Example exampleRun :
  processDeletedFields Z id exampleUnmarshal exampleSf exampleQueries exampleClock
    exampleDeletedFields "org" freshProcess =
  Done (tt, {| deleteCounts := [fooRecord]; clockReads := 1 |}).
Proof. vm_compute. reflexivity. Qed.

Example exampleExtract :
  extractCSVData ("Querying Data... done" +:+ NL +:+ exampleTable) = exampleTable.
Proof. vm_compute. reflexivity. Qed.

Lemma decodeDocument_Json exportData : decodeDocument (Json exportData) = Some exportData.
Proof. reflexivity. Qed.

Example utcDate_epoch :
  utcDate 0 = "1970-01-01" ∧ utcDate 86399 = "1970-01-01" ∧ utcDate 86400 = "1970-01-02".
Proof. vm_compute. done. Qed.

Example utcDate_leap_day :
  utcDate 951782400 = "2000-02-29" ∧ utcDate 951868800 = "2000-03-01" ∧
  utcDate 1735689599 = "2024-12-31" ∧ utcDate 1735689600 = "2025-01-01".
Proof. vm_compute. done. Qed.

Example dates_of_the_records :
  utcDate 1699948800 = "2023-11-14" ∧ utcDate 1699963200 = "2023-11-14" ∧
  utcDate 1700049600 = "2023-11-15".
Proof. vm_compute. done. Qed.

Example calculateCurCounts_three :
  calculateCurCounts utcDate 0 [accountMorning; contactNoon; accountNoon] =
  [ {| Date := "2023-11-14"; DateCount := 8 |} ].
Proof. vm_compute. reflexivity. Qed.

Example first_run_writes_stateAfterFirstRun :
  exportResultsAsJSON_run utcDate Document decodeDocument Json
    NoFault Missing [accountMorning] 1699948900 =
  (Done tt, Present (Json stateAfterFirstRun)).
Proof. vm_compute. reflexivity. Qed.


(** ** The theorems at concrete inputs *)

#[local] Abbreviation exportDoc :=
  (exportResultsAsJSON utcDate Document decodeDocument Json).

(** C1 fails as stated.  A file holds [accountMorning] of 14 November; the
    next day's run finds [contactNextDay].  The only [lastRunCount] the step
    can write has the one entry of 15 November: it is no arrangement of the
    totals of the two persisted and new records together, which have an
    entry for each day. *)
Lemma lastRunCount_over_merged_results_counterexample :
  (forall res,
     exportDoc NoFault (Present (Json stateAfterFirstRun)) [contactNextDay] 1700049700 res <->
     res = (Done tt,
            Present (Json {| Results := [accountMorning; contactNextDay];
                             LastRunCount := [ {| Date := "2023-11-15"; DateCount := 3 |} ] |}))) ∧
  ¬ curCounts utcDate 1700049700 (Results stateAfterFirstRun ++ [contactNextDay])
      [ {| Date := "2023-11-15"; DateCount := 3 |} ].
Proof.
  split.
  - intros res. unfold exportResultsAsJSON, curCounts. simpl loadExportData. cbv iota.
    replace (calculateCurCounts utcDate 1700049700 [contactNextDay])
      with [ {| Date := "2023-11-15"; DateCount := 3 |} ] by (vm_compute; reflexivity).
    split.
    + intros (lastRunCount & Hperm & ->). by apply Permutation_singleton_r in Hperm as ->.
    + intros ->. by eexists.
  - unfold curCounts. intros Hperm. apply Permutation_length in Hperm.
    vm_compute in Hperm. discriminate.
Qed.

(** C1, as the code has it, at the same input. *)
Lemma export_lastRunCount_of_new_batch_witness :
  loadExportData Document decodeDocument NoFault (Present (Json stateAfterFirstRun)) =
    Done stateAfterFirstRun ∧
  exists lastRunCount,
    exportResultsAsJSON_run utcDate Document decodeDocument Json NoFault
      (Present (Json stateAfterFirstRun)) [contactNextDay] 1700049700 =
    (Done tt,
     Present (Json {| Results := Results stateAfterFirstRun ++ [contactNextDay];
                      LastRunCount := lastRunCount |})) ∧
    curCounts utcDate 1700049700 [contactNextDay] lastRunCount ∧
    forall entry,
      entry ∈ lastRunCount <->
      if decide ([contactNextDay] = []) then entry = {| Date := utcDate 1700049700; DateCount := 0 |}
      else onDate utcDate (Date entry) [contactNextDay] ≠ [] ∧
           DateCount entry = wrap64 (dateTotal utcDate (Date entry) [contactNextDay]).
Proof.
  split; [reflexivity|].
  apply (export_lastRunCount_of_new_batch utcDate Document decodeDocument Json
           (Present (Json stateAfterFirstRun)) stateAfterFirstRun [contactNextDay] 1700049700).
  - reflexivity.
  - unfold exportResultsAsJSON. simpl. eexists. split; [|reflexivity].
    unfold curCounts. reflexivity.
Defined.

(** C2 fails as stated.  The file holds the state the first run wrote, with
    the total 5 for 14 November.  A run with no new record, later on the
    same day, writes the total 0 for that day. *)
Lemma empty_batch_keeps_lastRunCount_counterexample :
  (forall res,
     exportDoc NoFault (Present (Json stateAfterFirstRun)) [] 1699963300 res <->
     res = (Done tt,
            Present (Json {| Results := [accountMorning];
                             LastRunCount := [ {| Date := "2023-11-14"; DateCount := 0 |} ] |}))) ∧
  ¬ [ {| Date := "2023-11-14"; DateCount := 0 |} ] ≡ₚ LastRunCount stateAfterFirstRun.
Proof.
  split.
  - intros res. unfold exportResultsAsJSON, curCounts. simpl. split.
    + intros (lastRunCount & Hperm & ->). by apply Permutation_singleton_r in Hperm as ->.
    + intros ->. by eexists.
  - simpl. intros Hperm. apply Permutation_singleton_inj in Hperm. discriminate.
Qed.

(** C2, as the code has it: two runs with no new record on 14 November. *)
Lemma export_empty_batch_twice_witness :
  reload decodeDocument (Present (Json stateAfterFirstRun)) = Some stateAfterFirstRun ∧
  utcDate 1699970500 = utcDate 1699963300 ∧
  (forall res,
     exportDoc NoFault (Present (Json stateAfterFirstRun)) [] 1699963300 res <->
     res = (Done tt,
            Present (Json {| Results := [accountMorning];
                             LastRunCount := [ {| Date := "2023-11-14"; DateCount := 0 |} ] |}))) ∧
  (forall res,
     exportDoc NoFault
       (Present (Json {| Results := [accountMorning];
                         LastRunCount := [ {| Date := "2023-11-14"; DateCount := 0 |} ] |}))
       [] 1699970500 res <->
     res = (Done tt,
            Present (Json {| Results := [accountMorning];
                             LastRunCount := [ {| Date := "2023-11-14"; DateCount := 0 |} ] |}))).
Proof.
  split; [reflexivity|]. split; [vm_compute; reflexivity|].
  destruct (export_empty_batch_twice utcDate Document decodeDocument Json decodeDocument_Json
              (Present (Json stateAfterFirstRun)) stateAfterFirstRun
              1699963300 1699970500 eq_refl) as [Hfirst Hsecond].
  split; [exact Hfirst|]. apply Hsecond. vm_compute. reflexivity.
Defined.

(** C5 at a file that does not decode. *)
Lemma export_malformed_state_is_fatal_witness :
  decodeDocument (Garbage "{") = None ∧
  (exportDoc NoFault (Present (Garbage "{")) [accountMorning] 1699948900
     (Fatal DecodeFailed, Present (Garbage "{")) ∧
   ¬ exportDoc NoFault (Present (Garbage "{")) [accountMorning] 1699948900
       (Done tt, Present (Json stateAfterFirstRun))).
Proof.
  split; [reflexivity|].
  pose proof (export_malformed_state_is_fatal utcDate Document decodeDocument Json
                NoFault (Garbage "{") [accountMorning] 1699948900) as H.
  split.
  - apply H; reflexivity.
  - intros Hres. apply H in Hres; [discriminate|reflexivity].
Defined.

(** C8 fails as stated.  The file holds [accountMorning]; a run of the same
    day finds [contactNoon] and writes its count 3 as the total of the day.
    The state reads back as written, and no computation of the current
    counts from its results, which total 8 for the day, gives that
    [lastRunCount]. *)
Lemma lastRunCount_recomputable_from_results_counterexample :
  let written := {| Results := [accountMorning; contactNoon];
                    LastRunCount := [ {| Date := "2023-11-14"; DateCount := 3 |} ] |} in
  (forall res,
     exportDoc NoFault (Present (Json stateAfterFirstRun)) [contactNoon] 1699963300 res <->
     res = (Done tt, Present (Json written))) ∧
  reload decodeDocument (Present (Json written)) = Some written ∧
  ¬ exists now, curCounts utcDate now (Results written) (LastRunCount written).
Proof.
  split; [|split].
  - intros res. unfold exportResultsAsJSON, curCounts. simpl loadExportData. cbv iota.
    replace (calculateCurCounts utcDate 1699963300 [contactNoon])
      with [ {| Date := "2023-11-14"; DateCount := 3 |} ] by (vm_compute; reflexivity).
    split.
    + intros (lastRunCount & Hperm & ->). by apply Permutation_singleton_r in Hperm as ->.
    + intros ->. by eexists.
  - reflexivity.
  - intros [now Hperm]. unfold curCounts in Hperm. simpl Results in Hperm.
    simpl LastRunCount in Hperm.
    replace (calculateCurCounts utcDate now [accountMorning; contactNoon])
      with [ {| Date := "2023-11-14"; DateCount := 8 |} ] in Hperm
      by (vm_compute; reflexivity).
    apply Permutation_singleton_inj in Hperm. discriminate.
Qed.

Lemma decodeChecked_encodable doc exportData :
  decodeChecked doc = Some exportData -> encodable (fun _ => true) exportData = true.
Proof.
  destruct doc as [|d]; [done|]. simpl.
  destruct (encodable (fun _ => true) d) eqn:Hd; [|done]. by intros [= <-].
Qed.

Lemma decodeChecked_Json exportData :
  encodable (fun _ => true) exportData = true ->
  decodeChecked (Json exportData) = Some exportData.
Proof. intros H. simpl. by rewrite H. Qed.

(** C8, as the code has it, at the same input. *)
Lemma export_reads_back_what_it_wrote_witness :
  loadExportData Document decodeChecked NoFault (Present (Json stateAfterFirstRun)) =
    Done stateAfterFirstRun ∧
  forallb (encodableRecord (fun _ => true)) [contactNoon] = true ∧
  exists written,
    reload decodeChecked
      (exportResultsAsJSON_run utcDate Document decodeChecked Json NoFault
         (Present (Json stateAfterFirstRun)) [contactNoon] 1699963300).2 = Some written ∧
    Results written = [accountMorning; contactNoon] ∧
    curCounts utcDate 1699963300 [contactNoon] (LastRunCount written).
Proof.
  split; [vm_compute; reflexivity|]. split; [vm_compute; reflexivity|].
  destruct (export_reads_back_what_it_wrote utcDate Document decodeChecked Json
              (fun _ => true) decodeChecked_encodable decodeChecked_Json
              (fun _ => eq_refl)
              (Present (Json stateAfterFirstRun)) stateAfterFirstRun [contactNoon] 1699963300
              (exportResultsAsJSON_run utcDate Document decodeChecked Json NoFault
                 (Present (Json stateAfterFirstRun)) [contactNoon] 1699963300))
    as (written & _ & Hreload & Hresults & Hcur & _).
  - vm_compute. reflexivity.
  - vm_compute. reflexivity.
  - apply exportResultsAsJSON_run_sound.
  - exists written. split; [exact Hreload|]. split; [exact Hresults|exact Hcur].
Defined.

(** C3 at three records of one day: the later [accountNoon] counts for
    nothing, the day totals the first [Account] record and the [Contact]
    record. *)
Lemma calculateCurCounts_first_seen_wins_witness :
  utcDate (Timestamp accountMorning) = utcDate (Timestamp accountNoon) ∧
  QualifiedApiName accountMorning = QualifiedApiName accountNoon ∧
  Count accountMorning ≠ Count accountNoon ∧
  calculateCurCounts utcDate 0 [accountMorning; contactNoon; accountNoon] =
    calculateCurCounts utcDate 0 [accountMorning; contactNoon] ∧
  {| Date := "2023-11-14"; DateCount := 8 |} ∈
    calculateCurCounts utcDate 0 [accountMorning; contactNoon; accountNoon].
Proof.
  split; [vm_compute; reflexivity|]. split; [reflexivity|]. split; [discriminate|].
  destruct (calculateCurCounts_first_seen_wins utcDate 0
              [] accountMorning [contactNoon] accountNoon [])
    as [Hsame Hentry].
  - vm_compute. reflexivity.
  - reflexivity.
  - intros r Hr. by apply elem_of_nil in Hr.
  - split; [exact Hsame|].
    apply (Hentry (calculateCurCounts utcDate 0 [accountMorning; contactNoon; accountNoon])
             (reflexivity _)).
    vm_compute. reflexivity.
Defined.

#[local] Abbreviation exampleStageAs :=
  (processDeletedFields Z id exampleUnmarshal exampleSf exampleQueries exampleClock).

(** The gate in the small world: the header and the row [Bar,Account] are
    skipped, and the one record of the run carries [Foo_del]. *)
Lemma stageA_processes_only_deleted_rows_witness :
  isHeader "DeveloperName,TableEnumOrId" = true ∧
  eligible "Bar,Account" = false ∧
  deletedFieldLine Z id exampleUnmarshal exampleSf exampleQueries exampleClock
    "org" "Bar,Account" freshProcess = Done (tt, freshProcess) ∧
  exists new,
    [fooRecord] = [] ++ new ∧
    Forall (fun r => exists line,
              line ∈ strings.Split exampleDeletedFields LF ∧
              eligible line = true ∧
              DeveloperName r = primaryField line ∧
              strings.HasSuffix (DeveloperName r) "_del" = true) new.
Proof.
  destruct (stageA_processes_only_deleted_rows Z id exampleUnmarshal exampleSf
              exampleQueries exampleClock) as (_ & Hskip & _ & Hrun).
  split; [reflexivity|]. split; [reflexivity|]. split.
  - apply Hskip; [reflexivity|]. vm_compute. lia.
  - apply (Hrun exampleDeletedFields "org" freshProcess
             {| deleteCounts := [fooRecord]; clockReads := 1 |}).
    vm_compute. reflexivity.
Defined.

(** C6 in the small world: the advisory line goes, the count is 7. *)
Lemma queryCount_totalSize_after_advisory_line_witness :
  queryCount Z id exampleUnmarshal exampleSf
    ["data"; "query"; "-q"; "SELECT Count() FROM Acme__Foo__c"; "-o"; "org"; "-r"; "json"] =
    Ok 7 ∧
  skipFirstLineIfNeeded
    ((" " +:+ RAQUO +:+ " Warning: @salesforce/cli update available") +:+ NL +:+ exampleJSON) =
    exampleJSON ∧
  skipFirstLineIfNeeded exampleJSON = exampleJSON.
Proof.
  destruct (queryCount_totalSize_after_advisory_line Z id exampleUnmarshal exampleSf)
    as (Hcount & Hstrip & Hkeep).
  split; [|split].
  - apply (Hcount _ (" " +:+ RAQUO +:+ " Warning: @salesforce/cli update available"
                       +:+ NL +:+ exampleJSON)); [reflexivity|].
    exists {[ "result" := VMap {[ "totalSize" := VFloat64 7 ]} ]},
      {[ "totalSize" := VFloat64 7 ]}, 7.
    split; [vm_compute; reflexivity|]. split; [reflexivity|]. split; reflexivity.
  - apply Hstrip; [left; vm_compute; reflexivity|vm_compute; reflexivity].
  - apply Hkeep; vm_compute; reflexivity.
Defined.

(** C9 at rows that are too short. *)
Lemma stages_index_rows_without_bounds_check_witness :
  exampleStageAs "Foo_del" "org" freshProcess = Panic ∧
  developerNameLine Z id exampleUnmarshal exampleSf exampleQueries exampleClock
    "Foo_del" "01I000000000001" "org" "Foo__c" freshProcess = Panic ∧
  apiNameLine Z id exampleUnmarshal exampleSf exampleClock
    "Foo_del" "01I000000000001" "org" "1,Foo__c" freshProcess = Panic ∧
  (2 <= fieldCount "Foo_del,01I000000000001")%nat.
Proof.
  destruct (stages_index_rows_without_bounds_check Z id exampleUnmarshal exampleSf
              exampleQueries exampleClock) as (HA & HB & HC & Hfoo & HAs & _).
  split; [apply Hfoo|]. split; [|split].
  - apply HB; [discriminate|vm_compute; lia].
  - apply HC; [discriminate|vm_compute; lia].
  - apply (HAs exampleDeletedFields "org" freshProcess
             {| deleteCounts := [fooRecord]; clockReads := 1 |}).
    + vm_compute. reflexivity.
    + vm_compute. set_solver.
    + discriminate.
    + reflexivity.
Defined.

(** C10 at a deleted field whose name begins with the column title: the row
    has the suffix and two fields, and the stage returns without a query or
    a record. *)
Lemma stageA_header_check_is_a_prefix_check_witness :
  strings.HasPrefix (primaryField "DeveloperNameX_del,01I000000000001") "DeveloperName" = true ∧
  strings.HasSuffix (primaryField "DeveloperNameX_del,01I000000000001") "_del" = true ∧
  primaryField "DeveloperNameX_del,01I000000000001" ≠ "DeveloperName" ∧
  exampleStageAs "DeveloperNameX_del,01I000000000001" "org" freshProcess =
    Done (tt, freshProcess).
Proof.
  split; [reflexivity|]. split; [reflexivity|]. split; [discriminate|].
  destruct (stageA_header_check_is_a_prefix_check Z id exampleUnmarshal exampleSf
              exampleQueries exampleClock "org" "DeveloperNameX_del,01I000000000001")
    as [_ Htable]; [reflexivity|].
  apply (Htable "DeveloperNameX_del,01I000000000001" [] [] freshProcess). reflexivity.
Defined.

(** * Further properties *)

(** ** Splitting and joining lines *)

Section LineFacts.

Import strings.

Lemma Contains_char_cons (a c : Ascii.ascii) (s : string) :
  Contains (String a s) (String c "") = Ascii.eqb a c || Contains s (String c "").
Proof. rewrite Contains_cons. cbn [HasPrefix]. by rewrite andb_true_r. Qed.

Lemma Contains_char_nil (c : Ascii.ascii) : Contains "" (String c "") = false.
Proof. done. Qed.

Lemma Contains_char_append (c : Ascii.ascii) (s t : string) :
  Contains (s +:+ t) (String c "") = Contains s (String c "") || Contains t (String c "").
Proof.
  induction s as [|a s IH]; [done|].
  rewrite append_cons, !Contains_char_cons, IH. by rewrite orb_assoc.
Qed.

(** A piece of a split holds no separator. *)
Lemma Split_pieces (s : string) (sep : Ascii.ascii) :
  Forall (fun piece => Contains piece (String sep "") = false) (Split s sep).
Proof.
  induction s as [|a s IH]; cbn [Split].
  - by apply Forall_singleton.
  - destruct (Ascii.eqb a sep) eqn:Ha.
    + by apply Forall_cons.
    + destruct (Split s sep) as [|w ws]; [by apply Forall_singleton; rewrite Contains_char_cons, Ha|].
      apply Forall_cons in IH as [Hw Hws]. apply Forall_cons. split; [|done].
      by rewrite Contains_char_cons, Ha, Hw.
Qed.

(** Splitting after a first piece and its separator. *)
Lemma Split_first (piece rest : string) (sep : Ascii.ascii) :
  Contains piece (String sep "") = false ->
  Split (piece +:+ String sep rest) sep = piece :: Split rest sep.
Proof.
  induction piece as [|a piece IH]; intros Hno.
  - rewrite append_nil_l. cbn [Split]. by rewrite Ascii.eqb_refl.
  - rewrite Contains_char_cons in Hno. apply orb_false_iff in Hno as [Ha Hno].
    rewrite append_cons. cbn [Split]. by rewrite Ha, (IH Hno).
Qed.

Lemma Split_no_sep (piece : string) (sep : Ascii.ascii) :
  Contains piece (String sep "") = false -> Split piece sep = [piece].
Proof.
  induction piece as [|a piece IH]; intros Hno; [done|].
  rewrite Contains_char_cons in Hno. apply orb_false_iff in Hno as [Ha Hno].
  cbn [Split]. by rewrite Ha, (IH Hno).
Qed.

Lemma Split_unlines (lines : list string) :
  Forall (fun line => Contains line NL = false) lines ->
  Split (unlines lines) LF = lines ++ [""].
Proof.
  induction lines as [|line lines IH]; intros Hall; [done|].
  apply Forall_cons in Hall as [Hline Hall]. cbn [unlines]. unfold NL at 1.
  rewrite append_cons, append_nil_l, Split_first by done. by rewrite IH.
Qed.

End LineFacts.

(** ** The decoder *)

Section DecoderFacts.

Import strings.

Lemma extractCSVLines_started (lines : list string) (csvData : string) :
  extractCSVLines lines true csvData =
  csvData +:+ unlines (filter (fun line => line ≠ "") lines).
Proof.
  revert csvData. induction lines as [|line lines IH]; intros csvData.
  - by rewrite append_nil_r.
  - cbn [extractCSVLines]. rewrite filter_cons.
    destruct (String.eqb_spec line "") as [->|Hne]; cbn [negb].
    + rewrite decide_False by (intros H; by apply H). apply IH.
    + rewrite decide_True by done. rewrite IH. cbn [unlines].
      by rewrite !append_assoc.
Qed.

Lemma extractCSVLines_waiting (lines : list string) (csvData : string) :
  extractCSVLines lines false csvData =
  csvData +:+ unlines (filter (fun line => line ≠ "") (fromFirstComma lines)).
Proof.
  revert csvData. induction lines as [|line lines IH]; intros csvData.
  - by rewrite append_nil_r.
  - cbn [extractCSVLines fromFirstComma].
    destruct (Contains line ",") eqn:Hcomma; [|apply IH].
    rewrite extractCSVLines_started, filter_cons.
    rewrite decide_True by (intros ->; done). cbn [unlines].
    by rewrite !append_assoc.
Qed.

(** [extractCSVData] is the decoder of the plain words. *)
Theorem extractCSVData_csvLines (output : string) :
  extractCSVData output = unlines (csvLines output).
Proof. unfold extractCSVData, csvLines. by rewrite extractCSVLines_waiting. Qed.

Lemma fromFirstComma_lines (lines : list string) :
  Forall (fun line => Contains line NL = false) lines ->
  Forall (fun line => Contains line NL = false) (fromFirstComma lines).
Proof.
  induction lines as [|line lines IH]; intros Hall; [done|].
  cbn [fromFirstComma]. destruct (Contains line ","); [done|].
  apply IH. by apply Forall_cons in Hall as [_ ?].
Qed.

Lemma Forall_filter_keep {A : Type} (P Q : A -> Prop) `{!forall x, Decision (P x)}
    (l : list A) :
  Forall Q l -> Forall Q (filter P l).
Proof.
  rewrite !Forall_forall. intros Hall x Hin. apply Hall.
  by apply list_elem_of_filter in Hin as [_ ?].
Qed.

Lemma filter_all {A : Type} (P : A -> Prop) `{!forall x, Decision (P x)} (l : list A) :
  Forall P l -> filter P l = l.
Proof.
  induction l as [|x l IH]; intros Hall; [done|].
  apply Forall_cons in Hall as [Hx Hall]. rewrite filter_cons_True by done.
  by rewrite IH.
Qed.

Lemma csvLines_no_line_feed (output : string) :
  Forall (fun line => Contains line NL = false) (csvLines output).
Proof.
  unfold csvLines. apply Forall_filter_keep, fromFirstComma_lines, Split_pieces.
Qed.

Lemma csvLines_nonempty_lines (output : string) :
  Forall (fun line => line ≠ "") (csvLines output).
Proof.
  unfold csvLines. apply Forall_forall. intros line Hin.
  by apply list_elem_of_filter in Hin as [? _].
Qed.

(** The first kept line is the first line with a comma. *)
Lemma fromFirstComma_head (lines : list string) :
  match fromFirstComma lines with
  | [] => Forall (fun line => Contains line "," = false) lines
  | line :: _ => Contains line "," = true
  end.
Proof.
  induction lines as [|line lines IH]; cbn [fromFirstComma]; [done|].
  destruct (Contains line ",") eqn:Hcomma; [done|].
  destruct (fromFirstComma lines); [by apply Forall_cons|done].
Qed.

Lemma csvLines_head (output : string) :
  match csvLines output with
  | [] => Forall (fun line => Contains line "," = false) (Split output LF)
  | line :: _ => Contains line "," = true
  end.
Proof.
  unfold csvLines. pose proof (fromFirstComma_head (Split output LF)) as Hhead.
  destruct (fromFirstComma (Split output LF)) as [|line lines]; [done|].
  rewrite filter_cons. rewrite decide_True; [done|]. by intros ->.
Qed.

Lemma fromFirstComma_started (line : string) (lines : list string) :
  Contains line "," = true -> fromFirstComma (line :: lines) = line :: lines.
Proof. intros H. cbn [fromFirstComma]. by rewrite H. Qed.

Lemma extractCSVData_Split (output : string) :
  Split (extractCSVData output) LF = csvLines output ++ [""].
Proof.
  rewrite extractCSVData_csvLines. apply Split_unlines, csvLines_no_line_feed.
Qed.

(** X1.  [extractCSVData] returns the lines of the output from the first
    line with a comma on, without the empty ones, each ended by a line
    feed.  So the table splits into these lines and one empty piece after
    the last line feed; its first line holds a comma; and when no line of
    the output holds a comma the table is the empty string. *)
Theorem extractCSVData_lines (output : string) :
  extractCSVData output = unlines (csvLines output) ∧
  Split (extractCSVData output) LF = csvLines output ++ [""] ∧
  Forall (fun line => line ≠ "") (csvLines output) ∧
  match csvLines output with
  | [] => extractCSVData output = "" ∧
          Forall (fun line => Contains line "," = false) (Split output LF)
  | line :: _ => Contains line "," = true
  end.
Proof.
  split; [apply extractCSVData_csvLines|]. split; [apply extractCSVData_Split|].
  split; [apply csvLines_nonempty_lines|].
  pose proof (csvLines_head output) as Hhead. rewrite extractCSVData_csvLines.
  destruct (csvLines output); [by split|done].
Qed.

(** X2.  Decoding a decoded table changes nothing. *)
Theorem extractCSVData_idempotent (output : string) :
  extractCSVData (extractCSVData output) = extractCSVData output.
Proof.
  rewrite (extractCSVData_csvLines (extractCSVData output)).
  rewrite (extractCSVData_csvLines output) at 2. f_equal. unfold csvLines at 1.
  rewrite extractCSVData_Split.
  pose proof (csvLines_nonempty_lines output) as Hne.
  pose proof (csvLines_head output) as Hhead.
  destruct (csvLines output) as [|line lines] eqn:Hlines; [done|].
  rewrite <- app_comm_cons, fromFirstComma_started by done.
  rewrite app_comm_cons, filter_app, filter_all by done.
  rewrite filter_cons_False by (intros H; by apply H). by rewrite filter_nil, app_nil_r.
Qed.

End DecoderFacts.

(** ** The field query *)

Section FieldQueryFacts.

Import strings.

Lemma ReplaceAll_keeps_out (s : string) (old c : Ascii.ascii) (new : string) :
  Contains s (String c "") = false ->
  Contains new (String c "") = false ->
  Contains (ReplaceAll s old new) (String c "") = false.
Proof.
  intros Hs Hnew. induction s as [|a s IH]; [done|].
  rewrite Contains_char_cons in Hs. apply orb_false_iff in Hs as [Ha Hs].
  cbn [ReplaceAll]. destruct (Ascii.eqb a old).
  - by rewrite Contains_char_append, Hnew, (IH Hs).
  - by rewrite Contains_char_cons, Ha, (IH Hs).
Qed.

Lemma ReplaceAll_removes (s : string) (old : Ascii.ascii) (new : string) :
  Contains new (String old "") = false ->
  Contains (ReplaceAll s old new) (String old "") = false.
Proof.
  intros Hnew. induction s as [|a s IH]; [done|].
  cbn [ReplaceAll]. destruct (Ascii.eqb a old) eqn:Ha.
  - by rewrite Contains_char_append, Hnew, IH.
  - by rewrite Contains_char_cons, Ha, IH.
Qed.

Variable sf : list string -> string * bool.
Variable queries : string -> option string.

(** X3.  The query [queryFieldData] hands to the CLI is one line: the line
    feeds of the query file are blanks in it, and an identifier without a
    line feed brings none.  When an identifier is given and holds no [#],
    no placeholder is left in the query.  The flag [-t] is the last
    argument exactly when the tooling API is asked for, and the result is
    the decoded output of the command, or its failure with the output. *)
Theorem queryFieldData_query_is_one_line
    (sfOrg queryFile queryId : string) (useToolingApi : bool) (queryData : string) :
  queries queryFile = Some queryData ->
  Contains queryId NL = false ->
  exists query,
    Contains query NL = false ∧
    (queryId ≠ "" -> Contains queryId "#" = false -> Contains query "#" = false) ∧
    (queryId = "" -> query = ReplaceAll queryData LF " ") ∧
    queryFieldData sf queries sfOrg queryFile queryId useToolingApi =
      let '(output, ok) :=
        sf (["data"; "query"; "-o"; sfOrg; "-r"; "csv"; "-q"; query] ++
            (if useToolingApi then ["-t"] else [])) in
      if ok then Ok (extractCSVData output) else Err (CommandFailed output).
Proof.
  intros Hfile Hid. unfold queryFieldData. rewrite Hfile.
  assert (Contains (ReplaceAll queryData LF " ") NL = false) as Hflat
    by (by apply ReplaceAll_removes).
  destruct (String.eqb_spec queryId "") as [->|Hne]; cbn [negb].
  - exists (ReplaceAll queryData LF " "). split; [done|]. split; [done|]. split; [done|].
    destruct useToolingApi; cbn [app]; by destruct (sf _) as [output []].
  - exists (ReplaceAll (ReplaceAll queryData LF " ") (Ascii.ascii_of_nat 35) queryId).
    split; [by apply ReplaceAll_keeps_out|].
    split; [intros _ Hhash; by apply ReplaceAll_removes|]. split; [done|].
    destruct useToolingApi; cbn [app]; by destruct (sf _) as [output []].
Qed.

End FieldQueryFacts.

(** ** The advisory line *)

Section AdvisoryFacts.

Import strings.

Lemma Contains_append_r (s substr t : string) :
  Contains t substr = true -> Contains (s +:+ t) substr = true.
Proof.
  rewrite !Contains_spec. intros (pre & post & ->). exists (s +:+ pre), post.
  by rewrite !append_assoc.
Qed.

(** X4.  [skipFirstLineIfNeeded] looks for the two markers in the whole
    output, not in its first line: when a marker stands anywhere after the
    first line feed, the first line goes all the same, whatever it is.  An
    output without a line feed comes back whole, marker or not. *)
Theorem skipFirstLineIfNeeded_marker_anywhere :
  (forall line rest,
     Contains line NL = false ->
     Contains rest RAQUO = true ∨ Contains rest "update available" = true ->
     skipFirstLineIfNeeded (line +:+ NL +:+ rest) = rest) ∧
  (forall output,
     Contains output NL = false -> skipFirstLineIfNeeded output = output).
Proof.
  split.
  - intros line rest Hline Hmark. apply skip_first_line; [|done].
    destruct Hmark as [H|H]; [left|right]; by do 2 apply Contains_append_r.
  - apply skip_single_line.
Qed.

Variable float64 : Type.
Variable float64ToInt : float64 -> Z.
Variable jsonUnmarshal : string -> option (gmap string (GoValue float64)).

(** X5.  An advisory line before the document does not change what
    [queryCount] returns: with a first line that holds a marker, and a
    document that holds none, the result (count or error) is the result for
    the document alone. *)
Theorem queryCount_ignores_advisory_line
    (sf1 sf2 : list string -> string * bool) (cmdArgs : list string)
    (banner document : string) :
  Contains banner RAQUO = true ∨ Contains banner "update available" = true ->
  Contains banner NL = false ->
  Contains document RAQUO = false ->
  Contains document "update available" = false ->
  sf1 cmdArgs = (banner +:+ NL +:+ document, true) ->
  sf2 cmdArgs = (document, true) ->
  queryCount float64 float64ToInt jsonUnmarshal sf1 cmdArgs =
  queryCount float64 float64ToInt jsonUnmarshal sf2 cmdArgs.
Proof.
  intros Hmark Hline Hdoc1 Hdoc2 Hsf1 Hsf2. unfold queryCount. rewrite Hsf1, Hsf2.
  rewrite (skip_nothing document) by done. rewrite skip_first_line; [reflexivity| |done].
  destruct Hmark as [H|H]; [left|right]; by apply Contains_append.
Qed.

End AdvisoryFacts.

(** ** More on the pipeline *)

Section PipelineMore.

Import strings.

Variable float64 : Type.
Variable float64ToInt : float64 -> Z.
Variable jsonUnmarshal : string -> option (gmap string (GoValue float64)).
Variable sf : list string -> string * bool.
Variable queries : string -> option string.
Variable clock : nat -> Z.

#[local] Abbreviation count := (queryCount float64 float64ToInt jsonUnmarshal sf).
#[local] Abbreviation rowC :=
  (apiNameLine float64 float64ToInt jsonUnmarshal sf clock).
#[local] Abbreviation tableC :=
  (processApiNames float64 float64ToInt jsonUnmarshal sf clock).
#[local] Abbreviation rowB :=
  (developerNameLine float64 float64ToInt jsonUnmarshal sf queries clock).
#[local] Abbreviation tableB :=
  (processDeveloperNames float64 float64ToInt jsonUnmarshal sf queries clock).
#[local] Abbreviation rowA :=
  (deletedFieldLine float64 float64ToInt jsonUnmarshal sf queries clock).
#[local] Abbreviation tableA :=
  (processDeletedFields float64 float64ToInt jsonUnmarshal sf queries clock).

Lemma Split_empty_line (sep : Ascii.ascii) : Split "" sep = [""].
Proof. done. Qed.

(** Stage C on a row it does not skip. *)
Lemma rowC_data developerName tableEnumOrId org apiLine apiData1 apiData2 p :
  apiLine ≠ "" ->
  Split apiLine COMMA !! 1%nat = Some apiData1 ->
  Split apiLine COMMA !! 2%nat = Some apiData2 ->
  apiData2 ≠ "QualifiedApiName" ->
  rowC developerName tableEnumOrId org apiLine p =
  match count (countArgs org apiData2) with
  | Ok n =>
      Done (tt, {| deleteCounts :=
                     deleteCounts p ++
                     [recordOf developerName tableEnumOrId apiData1 apiData2 n
                        (clock (clockReads p))];
                   clockReads := S (clockReads p) |})
  | Err e => Fatal e
  end.
Proof.
  intros Hline H1 H2 Hhead. unfold apiNameLine.
  apply String.eqb_neq in Hline as ->. apply String.eqb_neq in Hhead.
  rewrite bind_run, (index_Some _ _ _ _ H2). cbv beta iota. rewrite Hhead.
  rewrite bind_run. unfold orFatal at 1. fold (countArgs org apiData2).
  destruct (count (countArgs org apiData2)) as [n|e]; [|done].
  rewrite bind_run. unfold timeNowUnix at 1. rewrite bind_run.
  by rewrite (index_Some _ _ _ _ H1).
Qed.

Lemma rowC_skipped developerName tableEnumOrId org apiLine p :
  apiLine = "" ∨ Split apiLine COMMA !! 2%nat = Some "QualifiedApiName" ->
  rowC developerName tableEnumOrId org apiLine p = Done (tt, p).
Proof.
  intros [->|H2]; [done|]. unfold apiNameLine.
  destruct (String.eqb apiLine ""); [done|].
  by rewrite bind_run, (index_Some _ _ _ _ H2).
Qed.

(** A row of stage C with three fields, the third of which is not the
    column title, asks for the count of the third field.  When the query
    gives a count, the stage appends one record, with the third field as
    qualified name, the second as API name, that count, and the clock read
    once; the records before it stay.  When the query fails, the process
    stops with that error and nothing is appended. *)
Theorem apiNameLine_appends_one_record
    (developerName tableEnumOrId org apiLine field0 apiData1 apiData2 : string)
    (rest : list string) (p : Process) :
  Split apiLine COMMA = field0 :: apiData1 :: apiData2 :: rest ->
  apiData2 ≠ "QualifiedApiName" ->
  rowC developerName tableEnumOrId org apiLine p =
  match count (countArgs org apiData2) with
  | Ok n =>
      Done (tt, {| deleteCounts :=
                     deleteCounts p ++
                     [ {| DeveloperName := developerName; TableEnumOrId := tableEnumOrId;
                          QualifiedApiName := apiData2; ApiName := apiData1;
                          Count := n; Timestamp := clock (clockReads p) |} ];
                   clockReads := S (clockReads p) |})
  | Err e => Fatal e
  end.
Proof.
  intros Hsplit Hhead. apply rowC_data; [|by rewrite Hsplit..|done].
  intros ->. by rewrite Split_empty_line in Hsplit.
Qed.

(** What a row of stage C that returns has done. *)
Lemma rowC_Done developerName tableEnumOrId org apiLine p p' :
  rowC developerName tableEnumOrId org apiLine p = Done (tt, p') ->
  if decide (apiLine ≠ "" ∧ Split apiLine COMMA !! 2%nat ≠ Some "QualifiedApiName")
  then exists apiData1 apiData2 n,
         Split apiLine COMMA !! 1%nat = Some apiData1 ∧
         Split apiLine COMMA !! 2%nat = Some apiData2 ∧
         count (countArgs org apiData2) = Ok n ∧
         p' = {| deleteCounts :=
                   deleteCounts p ++
                   [recordOf developerName tableEnumOrId apiData1 apiData2 n
                      (clock (clockReads p))];
                 clockReads := S (clockReads p) |}
  else p' = p.
Proof.
  intros Hrun. destruct (decide _) as [[Hline Hhead]|Hskip].
  - destruct (Split apiLine COMMA !! 2%nat) as [apiData2|] eqn:H2.
    + destruct (Split apiLine COMMA !! 1%nat) as [apiData1|] eqn:H1.
      * assert (apiData2 ≠ "QualifiedApiName") as Hne by (intros ->; by apply Hhead).
        rewrite (rowC_data _ _ _ _ apiData1 apiData2) in Hrun by done.
        destruct (count (countArgs org apiData2)) as [n|e] eqn:Hcount; [|done].
        injection Hrun as <-. by exists apiData1, apiData2, n.
      * apply lookup_fieldCount in H1.
        assert (2 < fieldCount apiLine)%nat by (apply lookup_lt_is_Some; by eexists). lia.
    + assert (rowC developerName tableEnumOrId org apiLine p = Panic) as Hpanic.
      { apply stageC_panics; [done|]. apply lookup_fieldCount in H2. lia. }
      congruence.
  - rewrite rowC_skipped in Hrun; [by injection Hrun as <-|].
    destruct (decide (apiLine = "")) as [|Hline]; [by left|]. right.
    destruct (decide (Split apiLine COMMA !! 2%nat = Some "QualifiedApiName")); [done|].
    exfalso. by apply Hskip.
Qed.

(** The records of stage C in the embedding, which runs the rows one after
    the other: one for each row that is not skipped, in the order of the
    rows.  The program keeps no such order; see the theorem below. *)
Lemma processApiNames_rows_in_turn
    (apiNameCSV developerName tableEnumOrId apiName org : string) (p p' : Process) :
  tableC apiNameCSV developerName tableEnumOrId apiName org p = Done (tt, p') ->
  exists new,
    deleteCounts p' = deleteCounts p ++ new ∧
    clockReads p' = (clockReads p + length new)%nat ∧
    Forall2 (fun record apiLine =>
               Split apiLine COMMA !! 2%nat = Some (QualifiedApiName record) ∧
               Split apiLine COMMA !! 1%nat = Some (ApiName record) ∧
               count (countArgs org (QualifiedApiName record)) = Ok (Count record) ∧
               DeveloperName record = developerName ∧
               TableEnumOrId record = tableEnumOrId)
      new (apiRows apiNameCSV).
Proof.
  unfold processApiNames, apiRows. generalize (Split apiNameCSV LF) as lines.
  intros lines. revert p. induction lines as [|line lines IH]; intros p.
  - intros [= <-]. exists []. rewrite app_nil_r, Nat.add_0_r. by repeat split.
  - rewrite forEach_cons.
    destruct (apiNameLine _ _ _ _ _ _ _ _ line p) as [[[] q]| |] eqn:Hline; [|done..].
    intros Hrest. destruct (IH q Hrest) as (new & Hnew & Hreads & Hall).
    apply rowC_Done in Hline. rewrite filter_cons.
    destruct (decide _) as [Hdata|Hskip].
    + destruct Hline as (apiData1 & apiData2 & n & H1 & H2 & Hcount & ->).
      exists (recordOf developerName tableEnumOrId apiData1 apiData2 n (clock (clockReads p))
                :: new).
      cbn [deleteCounts clockReads] in Hnew, Hreads. split; [|split].
      * by rewrite Hnew, <- app_assoc.
      * rewrite Hreads. cbn [length]. lia.
      * apply Forall2_cons. split; [by repeat split|done].
    + subst q. by exists new.
Qed.

(** X6.  When stage C returns, it has appended one record for every row of
    its table that is not empty and not the header, and nothing else: the
    records stand one to one against these rows taken in some order, and
    the record of a row has its third field as qualified name, its second
    as API name, and the count the query gave for that name; the records
    carry the two names the stage was called with, the clock was read once
    for each, and the records that were there stay.  Nothing is said of
    the order in which the new records stand: the program appends them as
    its tasks finish. *)
Theorem processApiNames_one_record_per_row
    (apiNameCSV developerName tableEnumOrId apiName org : string) (p p' : Process) :
  tableC apiNameCSV developerName tableEnumOrId apiName org p = Done (tt, p') ->
  exists new rows,
    deleteCounts p' = deleteCounts p ++ new ∧
    clockReads p' = (clockReads p + length new)%nat ∧
    rows ≡ₚ apiRows apiNameCSV ∧
    Forall2 (fun record apiLine =>
               Split apiLine COMMA !! 2%nat = Some (QualifiedApiName record) ∧
               Split apiLine COMMA !! 1%nat = Some (ApiName record) ∧
               count (countArgs org (QualifiedApiName record)) = Ok (Count record) ∧
               DeveloperName record = developerName ∧
               TableEnumOrId record = tableEnumOrId)
      new rows.
Proof.
  intros Hrun.
  destruct (processApiNames_rows_in_turn _ _ _ _ _ _ _ Hrun) as (new & Hnew & Hreads & Hall).
  by exists new, (apiRows apiNameCSV).
Qed.

(** *** The row of a field with a direct reference *)

Lemma forEach_singleton {A : Type} (x : A) (body : A -> Run unit) p :
  forEach [x] body p = body x p.
Proof. rewrite forEach_cons. by destruct (body x p) as [[[] q]| |]. Qed.

Lemma append_not_empty (s t : string) : t ≠ "" -> s +:+ t ≠ "".
Proof. intros Ht. destruct s; [done|]. by rewrite append_cons. Qed.

Lemma Contains_prefix_char (s t : string) (c : Ascii.ascii) :
  Contains (s +:+ t) (String c "") = false -> Contains s (String c "") = false.
Proof. rewrite Contains_char_append. by intros [? _]%orb_false_iff. Qed.

(** The two lines of the table line 178 builds. *)
Lemma Split_direct_table (data0 : string) :
  Contains data0 NL = false ->
  Split (data0 +:+ ",DeveloperName" +:+ NL +:+ data0 +:+ "," +:+ data0) LF =
  [data0 +:+ ",DeveloperName"; data0 +:+ "," +:+ data0].
Proof.
  intros Hno. unfold NL in Hno.
  replace (data0 +:+ ",DeveloperName" +:+ NL +:+ data0 +:+ "," +:+ data0)
    with ((data0 +:+ ",DeveloperName") +:+ String LF (data0 +:+ "," +:+ data0))
    by (by rewrite append_assoc).
  rewrite Split_first.
  - f_equal. apply Split_no_sep. by rewrite !Contains_char_append, Hno.
  - by rewrite Contains_char_append, Hno.
Qed.

Lemma Split_two_fields (data0 field1 : string) :
  Contains data0 "," = false -> Contains field1 "," = false ->
  Split (data0 +:+ "," +:+ field1) COMMA = [data0; field1].
Proof.
  intros H0 H1.
  replace (data0 +:+ "," +:+ field1) with (data0 +:+ String COMMA field1) by done.
  rewrite Split_first by done. f_equal. by apply Split_no_sep.
Qed.

(** X7.  A deleted field whose table identifier does not begin with [01I]
    is its own developer name: its row does what stage C does with the
    table of the API-name query for the primary field itself.  The table of
    two lines that line 178 builds adds no other query, and a failure of
    that query stops the process. *)
Theorem deletedFieldLine_direct_reference
    (org line data0 data1 : string) (rest : list string) (p : Process) :
  Contains line NL = false ->
  isHeader line = false ->
  Split line COMMA = data0 :: data1 :: rest ->
  HasSuffix data0 "_del" = true ->
  HasPrefix data1 "01I" = false ->
  rowA org line p =
  match queryFieldData sf queries org "soql/developer_name_to_api_name.soql" data0 false with
  | Ok apiNameCSV => tableC apiNameCSV data0 data1 data0 org p
  | Err e => Fatal e
  end.
Proof.
  intros Hline Hheader Hsplit Hsuffix Hdirect.
  assert (primaryField line = data0) as Hprimary
    by (unfold primaryField; by rewrite Hsplit).
  assert (line ≠ "") as Hne by (intros ->; by rewrite Split_empty_line in Hsplit).
  assert (Contains data0 "," = false) as Hcomma.
  { pose proof (Split_pieces line COMMA) as Hall. rewrite Hsplit in Hall.
    by apply Forall_cons in Hall as [? _]. }
  assert (Contains data0 NL = false) as Hfeed.
  { destruct (Split_hd_prefix line COMMA) as [tail Htail].
    fold (primaryField line) in Htail. rewrite Hprimary in Htail. rewrite Htail in Hline.
    unfold NL in *. by apply Contains_prefix_char in Hline. }
  assert (data0 ≠ "DeveloperName") as Htitle.
  { intros ->. unfold isHeader in Hheader.
    rewrite (primaryField_prefix line "DeveloperName") in Hheader; [done|].
    by rewrite Hprimary. }
  rewrite stageA_dispatched.
  2: { apply orb_false_iff. split; [by apply String.eqb_neq|done]. }
  2: { by rewrite Hprimary. }
  rewrite Hsplit, Hprimary. cbn [lookup list_lookup]. rewrite bind_run.
  unfold developerNamesOf. rewrite Hdirect. rewrite ret_run.
  unfold processDeveloperNames. rewrite Split_direct_table by done.
  rewrite forEach_cons.
  assert (rowB data0 data1 org (data0 +:+ ",DeveloperName") p = Done (tt, p)) as ->.
  { unfold developerNameLine.
    assert (data0 +:+ ",DeveloperName" ≠ "") as ->%String.eqb_neq
      by (by apply append_not_empty).
    rewrite bind_run. unfold index.
    replace (data0 +:+ ",DeveloperName") with (data0 +:+ "," +:+ "DeveloperName") by done.
    by rewrite Split_two_fields. }
  rewrite forEach_singleton. unfold developerNameLine.
  assert (data0 +:+ "," +:+ data0 ≠ "") as ->%String.eqb_neq
    by (apply append_not_empty; by destruct data0).
  rewrite bind_run. unfold index. rewrite Split_two_fields by done.
  cbn [lookup list_lookup]. apply String.eqb_neq in Htitle as ->.
  rewrite bind_run. unfold orFatal.
  by destruct (queryFieldData _ _ _ _ _ _).
Qed.

(** *** Whose record it is *)

(** What holds of every record stage C appends for [developerName],
    [tableEnumOrId] and [org]. *)
#[local] Abbreviation attributed developerName tableEnumOrId org :=
  (fun r : DeleteCountRecord =>
     DeveloperName r = developerName ∧ TableEnumOrId r = tableEnumOrId ∧
     QualifiedApiName r ≠ "QualifiedApiName" ∧
     count (countArgs org (QualifiedApiName r)) = Ok (Count r)).

Lemma rowC_attributed developerName tableEnumOrId org apiLine :
  appends (attributed developerName tableEnumOrId org)
    (rowC developerName tableEnumOrId org apiLine).
Proof.
  intros p u p' Hrun. destruct u. apply rowC_Done in Hrun.
  destruct (decide _) as [[_ Hhead]|_].
  - destruct Hrun as (apiData1 & apiData2 & n & H1 & H2 & Hcount & ->).
    eexists. split; [done|]. apply Forall_singleton.
    split; [done|]. split; [done|]. split; [|done].
    cbn. intros ->. by apply Hhead.
  - subst p'. exists []. by rewrite app_nil_r.
Qed.

Lemma rowB_attributed developerName tableEnumOrId org devLine :
  appends (attributed developerName tableEnumOrId org)
    (rowB developerName tableEnumOrId org devLine).
Proof.
  unfold developerNameLine. destruct (String.eqb devLine ""); [apply appends_ret|].
  apply appends_bind; [apply index_pure|]. intros apiData1.
  destruct (String.eqb apiData1 "DeveloperName"); [apply appends_ret|].
  apply appends_bind; [apply orFatal_pure|]. intros apiNameCSV.
  apply appends_forEach. intros apiLine _. apply rowC_attributed.
Qed.

Lemma tableA_attributed (deletedFieldsCSV org : string) :
  appends (fun r =>
             (exists line,
                line ∈ Split deletedFieldsCSV LF ∧ eligible line = true ∧
                Split line COMMA !! 0%nat = Some (DeveloperName r) ∧
                Split line COMMA !! 1%nat = Some (TableEnumOrId r)) ∧
             QualifiedApiName r ≠ "QualifiedApiName" ∧
             count (countArgs org (QualifiedApiName r)) = Ok (Count r))
    (tableA deletedFieldsCSV org).
Proof.
  apply appends_forEach. intros line Hline.
  destruct (String.eqb line "" || isHeader line) eqn:Hskip.
  { intros p u p'. rewrite stageA_skipped by done. apply appends_ret. }
  destruct (HasSuffix (primaryField line) "_del") eqn:Hsuffix.
  - intros p u p'. rewrite stageA_dispatched by done.
    destruct (Split line COMMA !! 1%nat) as [data1|] eqn:H1; [|done].
    revert p u p'. apply appends_bind; [apply developerNamesOf_pure|].
    intros devNameCSV.
    eapply appends_weaken;
      [|apply appends_forEach; intros devLine _; apply rowB_attributed].
    intros r (Hdev & Htable & Hname & Hcount). split; [|done].
    exists line. split; [done|]. split.
    + unfold eligible. apply orb_false_iff in Hskip as [-> ->]. by rewrite Hsuffix.
    + by rewrite Hdev, Htable, primaryField_lookup.
  - intros p u p'. rewrite stageA_not_deleted by done.
    destruct (Split line COMMA !! 1%nat); [apply appends_ret|done].
Qed.

(** X8.  Every record a run of the pipeline appends belongs to one eligible
    row of the deleted-fields table: its developer name and table identifier
    are the first two fields of that row.  Its qualified name is never the
    column title, and its count is what the count query returns for its
    qualified name.  The records that were there stay, in their order. *)
Theorem processDeletedFields_records_are_attributed
    (deletedFieldsCSV org : string) (p p' : Process) :
  tableA deletedFieldsCSV org p = Done (tt, p') ->
  exists new,
    deleteCounts p' = deleteCounts p ++ new ∧
    Forall (fun r =>
              (exists line,
                 line ∈ Split deletedFieldsCSV LF ∧ eligible line = true ∧
                 Split line COMMA !! 0%nat = Some (DeveloperName r) ∧
                 Split line COMMA !! 1%nat = Some (TableEnumOrId r)) ∧
              QualifiedApiName r ≠ "QualifiedApiName" ∧
              count (countArgs org (QualifiedApiName r)) = Ok (Count r)) new.
Proof. intros Hrun. exact (tableA_attributed deletedFieldsCSV org p tt p' Hrun). Qed.

End PipelineMore.

(** ** More on the current counts *)

Section AggregatorMore.

Variable dateOf : Z -> string.

Lemma countsOf_lookup_Some records d c :
  countsOf dateOf records !! d = Some c ->
  exists r, r ∈ records ∧ dateOf (Timestamp r) = d.
Proof.
  rewrite countsOf_dateTotal. destruct (decide _) as [|Hne]; [done|]. intros _.
  by apply onDate_nonempty in Hne.
Qed.

Lemma countsOf_lookup_record records r :
  r ∈ records -> is_Some (countsOf dateOf records !! dateOf (Timestamp r)).
Proof.
  intros Hr. rewrite countsOf_dateTotal. rewrite decide_False; [by eexists|].
  apply onDate_nonempty. by exists r.
Qed.

(** X9.  Whatever list [calculateCurCounts] returns, it is not empty and
    no two of its entries have the same date.  For a batch that is not
    empty the dates of the entries are the dates of the records. *)
Theorem curCounts_dates (now : Z) (records : list DeleteCountRecord) (out : list LastCount) :
  curCounts dateOf now records out ->
  out ≠ [] ∧
  NoDup (Date <$> out) ∧
  (records ≠ [] ->
   forall d, d ∈ Date <$> out <-> exists r, r ∈ records ∧ dateOf (Timestamp r) = d).
Proof.
  intros Hout. unfold curCounts in Hout.
  destruct records as [|r0 records].
  - apply Permutation_singleton_r in Hout as ->. split; [done|]. split; [|done].
    apply NoDup_singleton.
  - rewrite calculateCurCounts_nonempty in Hout by done.
    set (all := r0 :: records) in *.
    assert (Date <$> out ≡ₚ (map_to_list (countsOf dateOf all)).*1) as Hdates.
    { rewrite Hout, <- list_fmap_compose. done. }
    split; [|split].
    + intros ->. apply Permutation_nil_l in Hout. symmetry in Hout.
      apply fmap_nil_inv in Hout.
      apply map_to_list_empty_iff in Hout.
      destruct (countsOf_lookup_record all r0) as [c Hc]; [by left|].
      by rewrite Hout, lookup_empty in Hc.
    + rewrite Hdates. apply NoDup_fst_map_to_list.
    + intros _ d. rewrite Hdates. rewrite list_elem_of_fmap. split.
      * intros ([d' c] & -> & Hin). apply elem_of_map_to_list in Hin.
        by eapply countsOf_lookup_Some.
      * intros (r & Hr & <-). destruct (countsOf_lookup_record all r Hr) as [c Hc].
        exists (dateOf (Timestamp r), c). split; [done|]. by apply elem_of_map_to_list.
Qed.

(** *** Without duplicates *)

Lemma firstSeenWins_all records :
  forall seen,
    NoDup (QualifiedApiName <$> records) ->
    (forall r, r ∈ records -> QualifiedApiName r ∉ seen) ->
    firstSeenWins seen records = records.
Proof.
  induction records as [|r records IH]; intros seen Hnodup Hseen; [done|].
  cbn [firstSeenWins]. rewrite fmap_cons in Hnodup. apply NoDup_cons in Hnodup as [Hr Hnodup].
  rewrite decide_False by (apply Hseen; by left). f_equal. apply IH; [done|].
  intros r' Hr'. apply not_elem_of_union. split.
  - apply not_elem_of_singleton. intros Heq. apply Hr. rewrite <- Heq.
    by apply list_elem_of_fmap_2.
  - apply Hseen. by right.
Qed.

Lemma onDate_names_NoDup records d :
  NoDup (keyOf dateOf <$> records) ->
  NoDup (QualifiedApiName <$> onDate dateOf d records).
Proof.
  induction records as [|r records IH]; intros Hnodup; [apply NoDup_nil_2|].
  rewrite fmap_cons in Hnodup. apply NoDup_cons in Hnodup as [Hr Hnodup].
  rewrite onDate_cons. destruct (decide (dateKey dateOf r = d)) as [Hd|]; [|by apply IH].
  rewrite fmap_cons. apply NoDup_cons. split; [|by apply IH].
  intros Hin. apply list_elem_of_fmap in Hin as (r' & Hname & Hr').
  apply onDate_elem in Hr' as [Hr' Hd']. apply Hr.
  apply list_elem_of_fmap. exists r'. split; [|done]. unfold keyOf. by rewrite Hd, Hd', Hname.
Qed.

Lemma sumCounts_range records :
  (forall r, r ∈ records -> 0 <= Count r) -> 0 <= sumCounts records.
Proof.
  induction records as [|r records IH]; intros Hpos; [done|].
  unfold sumCounts in *. cbn [fmap list_fmap foldr].
  pose proof (Hpos r (list_elem_of_here _ _)).
  pose proof (IH (fun r' Hr' => Hpos r' (list_elem_of_further _ _ _ Hr'))). lia.
Qed.

(** X10.  When no two records of a batch have the same date and qualified
    name, the count of an entry is the plain sum of the counts of the
    records of its date, as an [int]; it is that sum exactly when the counts
    are not negative and the sum is below 2^63. *)
Theorem curCounts_without_duplicates
    (now : Z) (records : list DeleteCountRecord) (out : list LastCount) :
  records ≠ [] ->
  NoDup (keyOf dateOf <$> records) ->
  curCounts dateOf now records out ->
  forall entry,
    entry ∈ out ->
    DateCount entry = wrap64 (sumCounts (onDate dateOf (Date entry) records)) ∧
    ((forall r, r ∈ records -> 0 <= Count r) ->
     sumCounts (onDate dateOf (Date entry) records) < 2 ^ 63 ->
     DateCount entry = sumCounts (onDate dateOf (Date entry) records)).
Proof.
  intros Hne Hnodup Hout entry Hin.
  apply (curCounts_elem dateOf now records out entry Hne Hout) in Hin.
  rewrite countsOf_dateTotal in Hin. destruct (decide _) as [|_]; [done|].
  injection Hin as Hcount. unfold dateTotal in Hcount.
  rewrite firstSeenWins_all in Hcount;
    [|by apply onDate_names_NoDup|intros r _; apply not_elem_of_empty].
  split; [done|]. intros Hpos Hsmall. rewrite <- Hcount. apply wrap64_small.
  split; [|done]. etrans; [|apply sumCounts_range]; [lia|].
  intros r Hr. apply Hpos. by apply onDate_elem in Hr as [? _].
Qed.

(** *** The order of the records *)

Lemma sumCounts_firstSeenWins_perm (l l' : list DeleteCountRecord) :
  l ≡ₚ l' ->
  (forall r r', r ∈ l -> r' ∈ l -> QualifiedApiName r = QualifiedApiName r' ->
                Count r = Count r') ->
  forall seen, sumCounts (firstSeenWins seen l) = sumCounts (firstSeenWins seen l').
Proof.
  induction 1 as [|x l l' Hperm IH|x y l|l l' l'' Hperm1 IH1 Hperm2 IH2];
    intros Hagree seen.
  - done.
  - assert (forall seen', sumCounts (firstSeenWins seen' l) = sumCounts (firstSeenWins seen' l'))
      as IH'.
    { apply IH. intros r r' Hr Hr'. apply Hagree; by right. }
    cbn [firstSeenWins]. destruct (decide _); [apply IH'|].
    unfold sumCounts in *. cbn [fmap list_fmap foldr]. by rewrite IH'.
  - cbn [firstSeenWins].
    destruct (decide (QualifiedApiName x = QualifiedApiName y)) as [Hxy|Hxy].
    + assert (Count x = Count y) as Hc.
      { apply Hagree; [by right; left|by left|done]. }
      rewrite Hxy. destruct (decide (QualifiedApiName y ∈ seen)) as [Hin|Hnotin]; [done|].
      rewrite !decide_True by set_solver.
      unfold sumCounts. cbn [fmap list_fmap foldr]. by rewrite Hc.
    + destruct (decide (QualifiedApiName y ∈ seen)) as [Hy|Hy],
               (decide (QualifiedApiName x ∈ seen)) as [Hx|Hx].
      * done.
      * rewrite decide_True by set_solver. done.
      * rewrite decide_True by set_solver. done.
      * rewrite !decide_False by set_solver.
        replace ({[QualifiedApiName y]} ∪ ({[QualifiedApiName x]} ∪ seen))
          with ({[QualifiedApiName x]} ∪ ({[QualifiedApiName y]} ∪ seen)) by set_solver.
        unfold sumCounts. cbn [fmap list_fmap foldr]. lia.
  - rewrite IH1 by done. apply IH2.
    intros r r' Hr Hr'. apply Hagree; by rewrite Hperm1.
Qed.

(** X11.  The order of the records of a batch does not matter when the
    records of one date and qualified name agree on the count: the batch in
    any other order gives the same current counts.  The pipeline appends
    its records in the order in which its tasks finish. *)
Theorem calculateCurCounts_order_independent
    (now : Z) (records records' : list DeleteCountRecord) :
  records ≡ₚ records' ->
  (forall r r', r ∈ records -> r' ∈ records -> keyOf dateOf r = keyOf dateOf r' ->
                Count r = Count r') ->
  calculateCurCounts dateOf now records = calculateCurCounts dateOf now records'.
Proof.
  intros Hperm Hagree.
  destruct records as [|r0 records].
  { apply Permutation_nil_l in Hperm as ->. done. }
  assert (records' ≠ []) as Hne'.
  { intros ->. by apply Permutation_nil_r in Hperm. }
  rewrite !calculateCurCounts_nonempty by done. f_equal. f_equal.
  apply map_eq. intros d. rewrite !countsOf_dateTotal.
  assert (onDate dateOf d (r0 :: records) ≡ₚ onDate dateOf d records') as Hdate.
  { unfold onDate. by rewrite Hperm. }
  destruct (decide (onDate dateOf d (r0 :: records) = [])) as [Hnil|Hcons].
  - rewrite Hnil in Hdate. apply Permutation_nil_l in Hdate. by rewrite decide_True.
  - rewrite decide_False.
    2: { intros Hnil. rewrite Hnil in Hdate. by apply Permutation_nil_r in Hdate. }
    f_equal. f_equal. unfold dateTotal. apply sumCounts_firstSeenWins_perm; [done|].
    intros r r' [Hr Hd]%onDate_elem [Hr' Hd']%onDate_elem Hname.
    apply Hagree; [done..|]. unfold keyOf. by rewrite Hd, Hd', Hname.
Qed.

End AggregatorMore.

(** ** More on the export step *)

Section ExportMore.

Variable dateOf : Z -> string.
Variable Bytes : Type.
Variable jsonDecode : Bytes -> option ExportData.
Variable jsonEncode : ExportData -> Bytes.

Hypothesis decode_encode : forall exportData, jsonDecode (jsonEncode exportData) = Some exportData.

#[local] Abbreviation runs := (exportRuns dateOf Bytes jsonDecode jsonEncode).

Lemma exportRuns_results (file file' : File Bytes) (history : list (list DeleteCountRecord * Z)) :
  runs file history file' ->
  forall old,
    loadExportData Bytes jsonDecode NoFault file = Done old ->
    exists written,
      loadExportData Bytes jsonDecode NoFault file' = Done written ∧
      Results written = Results old ++ concat (history.*1) ∧
      match last history with
      | Some (deleteCounts, now) =>
          reload jsonDecode file' = Some written ∧
          curCounts dateOf now deleteCounts (LastRunCount written)
      | None => file' = file
      end.
Proof.
  induction 1 as [file|file deleteCounts now file1 history file2 Hrun Hruns IH]; intros old Hold.
  - exists old. by rewrite app_nil_r.
  - apply (export_no_fault dateOf Bytes jsonDecode jsonEncode _ _ _ _ _ Hold) in Hrun
      as (lastRunCount & Hcur & [= ->]).
    destruct (IH {| Results := Results old ++ deleteCounts; LastRunCount := lastRunCount |})
      as (written & Hload & Hresults & Hlast).
    { simpl. by rewrite decode_encode. }
    exists written. split; [done|]. split.
    + rewrite Hresults. cbn [Results fmap list_fmap concat fst]. by rewrite app_assoc.
    + destruct history as [|run history].
      * cbn [last] in Hlast |- *. subst file2. simpl in Hload.
        rewrite decode_encode in Hload. injection Hload as <-.
        split; [by apply decode_encode|done].
      * change (last ((deleteCounts, now) :: run :: history)) with (last (run :: history)).
        destruct (last (run :: history)) as [[batch instant]|] eqn:Hl; [exact Hlast|].
        by apply last_None in Hl.
Qed.

(** X12.  After any number of runs without a failure, the file reads back
    with the results that were there followed by the batches of the runs,
    in their order and whole: nothing is lost, moved or written twice.  Its
    [lastRunCount] is the current counts of the batch of the last run
    alone. *)
Theorem exportRuns_accumulate
    (file file' : File Bytes) (old : ExportData)
    (history : list (list DeleteCountRecord * Z))
    (deleteCounts : list DeleteCountRecord) (now : Z) :
  loadExportData Bytes jsonDecode NoFault file = Done old ->
  runs file (history ++ [(deleteCounts, now)]) file' ->
  exists written,
    reload jsonDecode file' = Some written ∧
    Results written = Results old ++ concat (history.*1) ++ deleteCounts ∧
    curCounts dateOf now deleteCounts (LastRunCount written).
Proof.
  intros Hold Hruns.
  destruct (exportRuns_results _ _ _ Hruns old Hold) as (written & _ & Hresults & Hlast).
  rewrite last_snoc in Hlast. destruct Hlast as [Hreload Hcur].
  exists written. split; [done|]. split; [|done].
  rewrite Hresults, fmap_app, concat_app. cbn. by rewrite app_nil_r.
Qed.

End ExportMore.

(** ** The checksum *)

Section ChecksumFacts.

Import strings.

Variable md5Hex : string -> string.

Lemma sliceFrom_all (s : string) : sliceFrom s (len s) = "".
Proof. induction s as [|a s IH]; [done|]. exact IH. Qed.

(** X13.  The hash the export step logs is the MD5 of no bytes, whatever
    was written: the file is read from where the encoder stopped writing,
    which is its end.  The file itself holds the whole encoding. *)
Theorem writeThenHash_hashes_nothing (encoded : string) :
  (writeThenHash md5Hex encoded).1 = md5Hex "" ∧
  openfile.content (writeThenHash md5Hex encoded).2 = encoded.
Proof.
  unfold writeThenHash, calculateMD5, openfile.ReadAll, openfile.Write, openfile.Create.
  cbn [openfile.content openfile.offset fst snd Nat.add openfile.sliceTo].
  assert (sliceFrom "" (len encoded) = "") as -> by (by destruct (len encoded)).
  rewrite append_nil_l, append_nil_r. split; [|done].
  by rewrite sliceFrom_all.
Qed.

End ChecksumFacts.

(** ** The program *)

Section MainFacts.

Import strings.

Variable dateOf : Z -> string.
Variable Bytes : Type.
Variable jsonDecode : Bytes -> option ExportData.
Variable jsonEncode : ExportData -> Bytes.
Variable float64 : Type.
Variable float64ToInt : float64 -> Z.
Variable jsonUnmarshal : string -> option (gmap string (GoValue float64)).
Variable sf : list string -> string * bool.
Variable queries : string -> option string.
Variable clock : nat -> Z.

#[local] Abbreviation program :=
  (main dateOf Bytes jsonDecode jsonEncode float64 float64ToInt jsonUnmarshal sf queries clock).
#[local] Abbreviation pipeline :=
  (processDeletedFields float64 float64ToInt jsonUnmarshal sf queries clock).
#[local] Abbreviation deletedFieldsQuery org :=
  (queryFieldData sf queries org "soql/deleted_fields.soql" "" true).

(** X14.  The file changes only at the very end of a run: when [main] ends
    with the file in another state, an organization was given, the CLI was
    there, the deleted-fields query and the whole pipeline ended well, and
    an export file was named.  A run that stops in a query, or panics on a
    short row, or is told not to export, leaves the file as it was. *)
Theorem main_writes_only_after_the_pipeline
    (org export : string) (fault : Fault Bytes) (file : File Bytes)
    (res : Exit * File Bytes) :
  program org export fault file res ->
  res.2 ≠ file ->
  org ≠ "" ∧ export ≠ "" ∧ sfCliInstallCheck sf = true ∧
  exists deletedFieldsCSV p,
    deletedFieldsQuery org = Ok deletedFieldsCSV ∧
    pipeline deletedFieldsCSV org freshProcess = Done (tt, p) ∧
    exists outcome,
      exportResultsAsJSON dateOf Bytes jsonDecode jsonEncode
        fault file (deleteCounts p) (clock (clockReads p)) (outcome, res.2).
Proof.
  unfold main. fold freshProcess. intros Hmain Hchanged.
  destruct (String.eqb_spec org "") as [->|Horg]; [by subst res|].
  destruct (sfCliInstallCheck sf); cbn [negb] in Hmain; [|by subst res].
  destruct (deletedFieldsQuery org) as [csv|e]; [|by subst res].
  destruct (pipeline csv org freshProcess) as [[[] p]| |] eqn:Hrun; [|by subst res..].
  destruct (String.eqb_spec export "") as [->|Hexport]; cbn [negb] in Hmain;
    [by subst res|].
  destruct Hmain as (outcome & file' & Hexp & ->).
  split; [done|]. split; [done|]. split; [done|].
  exists csv, p. split; [done|]. split; [done|]. by exists outcome.
Qed.

Section Codec.

Hypothesis decode_encode : forall exportData, jsonDecode (jsonEncode exportData) = Some exportData.


End Codec.

End MainFacts.

(** ** The further properties at concrete inputs *)

Lemma queryFieldData_query_is_one_line_witness :
  exampleQueries "soql/enum_to_developer_name.soql" =
    Some ("SELECT Id, DeveloperName" +:+ NL +:+ "FROM CustomObject WHERE Id = '#'") ∧
  strings.Contains "01I000000000001" NL = false ∧
  exists query,
    strings.Contains query NL = false ∧
    strings.Contains query "#" = false ∧
    queryFieldData exampleSf exampleQueries "org" "soql/enum_to_developer_name.soql"
      "01I000000000001" true = Ok exampleTable.
Proof.
  split; [reflexivity|]. split; [reflexivity|].
  destruct (queryFieldData_query_is_one_line exampleSf exampleQueries
              "org" "soql/enum_to_developer_name.soql" "01I000000000001" true
              ("SELECT Id, DeveloperName" +:+ NL +:+ "FROM CustomObject WHERE Id = '#'"))
    as (query & Hline & Hhash & _ & Hrun); [reflexivity|reflexivity|].
  exists query. split; [exact Hline|]. split; [apply Hhash; [discriminate|reflexivity]|].
  rewrite Hrun. vm_compute. reflexivity.
Defined.

Lemma skipFirstLineIfNeeded_marker_anywhere_witness :
  skipFirstLineIfNeeded ("{" +:+ NL +:+ DQ +:+ "note" +:+ DQ +:+ ": " +:+ DQ +:+
                         "no update available" +:+ DQ +:+ "}") =
    DQ +:+ "note" +:+ DQ +:+ ": " +:+ DQ +:+ "no update available" +:+ DQ +:+ "}" ∧
  skipFirstLineIfNeeded "update available" = "update available".
Proof.
  destruct skipFirstLineIfNeeded_marker_anywhere as [Hdrop Hkeep].
  split.
  - apply (Hdrop "{"); [reflexivity|]. right. vm_compute. reflexivity.
  - apply Hkeep. reflexivity.
Defined.

Lemma queryCount_ignores_advisory_line_witness :
  queryCount Z id exampleUnmarshal exampleSf (countArgs "org" "Acme__Foo__c") =
  queryCount Z id exampleUnmarshal (fun _ => (exampleJSON, true))
    (countArgs "org" "Acme__Foo__c") ∧
  queryCount Z id exampleUnmarshal exampleSf (countArgs "org" "Acme__Foo__c") = Ok 7.
Proof.
  split; [|vm_compute; reflexivity].
  apply (queryCount_ignores_advisory_line Z id exampleUnmarshal exampleSf
           (fun _ => (exampleJSON, true)) (countArgs "org" "Acme__Foo__c")
           (" " +:+ RAQUO +:+ " Warning: @salesforce/cli update available") exampleJSON).
  - left. vm_compute. reflexivity.
  - vm_compute. reflexivity.
  - vm_compute. reflexivity.
  - vm_compute. reflexivity.
  - reflexivity.
  - reflexivity.
Defined.

Lemma apiNameLine_appends_one_record_witness :
  strings.Split "1,Foo__c,Acme__Foo__c" COMMA = ["1"; "Foo__c"; "Acme__Foo__c"] ∧
  apiNameLine Z id exampleUnmarshal exampleSf exampleClock
    "Foo_del" "01I000000000001" "org" "1,Foo__c,Acme__Foo__c" freshProcess =
  Done (tt, {| deleteCounts := [fooRecord]; clockReads := 1 |}).
Proof.
  split; [reflexivity|].
  rewrite (apiNameLine_appends_one_record Z id exampleUnmarshal exampleSf exampleClock
             "Foo_del" "01I000000000001" "org" "1,Foo__c,Acme__Foo__c"
             "1" "Foo__c" "Acme__Foo__c" [] freshProcess);
    [|reflexivity|discriminate].
  vm_compute. reflexivity.
Defined.

Lemma processApiNames_one_record_per_row_witness :
  apiRows exampleTable = ["1,Foo__c,Acme__Foo__c"] ∧
  exists new rows,
    [fooRecord] = [] ++ new ∧
    length new = 1%nat ∧
    rows ≡ₚ apiRows exampleTable ∧
    Forall2 (fun record apiLine =>
               strings.Split apiLine COMMA !! 2%nat = Some (QualifiedApiName record) ∧
               strings.Split apiLine COMMA !! 1%nat = Some (ApiName record))
      new rows.
Proof.
  split; [vm_compute; reflexivity|].
  destruct (processApiNames_one_record_per_row Z id exampleUnmarshal exampleSf exampleClock
              exampleTable "Foo_del" "01I000000000001" "Foo__c" "org" freshProcess
              {| deleteCounts := [fooRecord]; clockReads := 1 |})
    as (new & rows & Hnew & Hreads & Hperm & Hall); [vm_compute; reflexivity|].
  exists new, rows. split; [exact Hnew|]. split; [cbn in Hreads; lia|].
  split; [exact Hperm|].
  eapply Forall2_impl; [exact Hall|]. intros r l (H2 & H1 & _). by split.
Defined.

Lemma deletedFieldLine_direct_reference_witness :
  strings.Split "Foo_del,Account" COMMA = ["Foo_del"; "Account"] ∧
  strings.HasPrefix "Account" "01I" = false ∧
  deletedFieldLine Z id exampleUnmarshal exampleSf exampleQueries exampleClock
    "org" "Foo_del,Account" freshProcess =
  processApiNames Z id exampleUnmarshal exampleSf exampleClock
    exampleTable "Foo_del" "Account" "Foo_del" "org" freshProcess.
Proof.
  split; [reflexivity|]. split; [reflexivity|].
  rewrite (deletedFieldLine_direct_reference Z id exampleUnmarshal exampleSf exampleQueries
             exampleClock "org" "Foo_del,Account" "Foo_del" "Account" [] freshProcess);
    [|reflexivity..].
  vm_compute. reflexivity.
Defined.

Lemma processDeletedFields_records_are_attributed_witness :
  exists new,
    [fooRecord] = [] ++ new ∧
    Forall (fun r =>
              (exists line,
                 line ∈ strings.Split exampleDeletedFields LF ∧ eligible line = true ∧
                 strings.Split line COMMA !! 0%nat = Some (DeveloperName r) ∧
                 strings.Split line COMMA !! 1%nat = Some (TableEnumOrId r)) ∧
              QualifiedApiName r ≠ "QualifiedApiName" ∧
              queryCount Z id exampleUnmarshal exampleSf
                (countArgs "org" (QualifiedApiName r)) = Ok (Count r)) new.
Proof.
  apply (processDeletedFields_records_are_attributed Z id exampleUnmarshal exampleSf
           exampleQueries exampleClock exampleDeletedFields "org" freshProcess
           {| deleteCounts := [fooRecord]; clockReads := 1 |}).
  vm_compute. reflexivity.
Defined.

Lemma curCounts_dates_witness :
  curCounts utcDate 0 [accountMorning; contactNextDay]
    (calculateCurCounts utcDate 0 [accountMorning; contactNextDay]) ∧
  NoDup (Date <$> calculateCurCounts utcDate 0 [accountMorning; contactNextDay]) ∧
  "2023-11-15" ∈ Date <$> calculateCurCounts utcDate 0 [accountMorning; contactNextDay].
Proof.
  assert (curCounts utcDate 0 [accountMorning; contactNextDay]
            (calculateCurCounts utcDate 0 [accountMorning; contactNextDay])) as Hcur
    by (unfold curCounts; reflexivity).
  split; [exact Hcur|].
  destruct (curCounts_dates utcDate 0 [accountMorning; contactNextDay] _ Hcur)
    as (_ & Hnodup & Hdates).
  split; [exact Hnodup|]. apply Hdates; [discriminate|].
  exists contactNextDay. split; [|vm_compute; reflexivity]. by right; left.
Defined.

Lemma curCounts_without_duplicates_witness :
  NoDup (keyOf utcDate <$> [accountMorning; contactNoon]) ∧
  DateCount {| Date := "2023-11-14"; DateCount := 8 |} =
    sumCounts (onDate utcDate "2023-11-14" [accountMorning; contactNoon]).
Proof.
  assert (NoDup (keyOf utcDate <$> [accountMorning; contactNoon])) as Hnodup.
  { vm_compute. apply NoDup_cons. split; [|apply NoDup_singleton].
    intros Hin. apply list_elem_of_singleton in Hin. discriminate. }
  split; [exact Hnodup|].
  assert (curCounts utcDate 0 [accountMorning; contactNoon]
            (calculateCurCounts utcDate 0 [accountMorning; contactNoon])) as Hcur
    by (unfold curCounts; reflexivity).
  apply (curCounts_without_duplicates utcDate 0 [accountMorning; contactNoon]
           (calculateCurCounts utcDate 0 [accountMorning; contactNoon])
           ltac:(discriminate) Hnodup Hcur
           {| Date := "2023-11-14"; DateCount := 8 |}).
  - vm_compute. by left.
  - intros r Hr. apply elem_of_cons in Hr as [->|Hr]; [vm_compute; discriminate|].
    apply list_elem_of_singleton in Hr as ->. vm_compute. discriminate.
  - vm_compute. reflexivity.
Defined.

Lemma calculateCurCounts_order_independent_witness :
  [accountMorning; contactNoon] ≡ₚ [contactNoon; accountMorning] ∧
  calculateCurCounts utcDate 0 [accountMorning; contactNoon] =
  calculateCurCounts utcDate 0 [contactNoon; accountMorning].
Proof.
  split; [apply perm_swap|].
  apply (calculateCurCounts_order_independent utcDate 0); [apply perm_swap|].
  intros r r' Hr Hr' Hkey.
  apply elem_of_cons in Hr as [->|Hr]; [|apply list_elem_of_singleton in Hr as ->];
    (apply elem_of_cons in Hr' as [->|Hr'];
       [|apply list_elem_of_singleton in Hr' as ->]);
    first [reflexivity | vm_compute in Hkey; discriminate].
Defined.

Lemma exportRuns_accumulate_witness :
  exportRuns utcDate Document decodeDocument Json Missing
    ([([accountMorning], 1699948900)] ++ [([contactNoon], 1699963300)])
    (Present (Json {| Results := [accountMorning; contactNoon];
                      LastRunCount := [ {| Date := "2023-11-14"; DateCount := 3 |} ] |})) ∧
  exists written,
    reload decodeDocument
      (Present (Json {| Results := [accountMorning; contactNoon];
                        LastRunCount := [ {| Date := "2023-11-14"; DateCount := 3 |} ] |})) =
      Some written ∧
    Results written = [accountMorning; contactNoon] ∧
    curCounts utcDate 1699963300 [contactNoon] (LastRunCount written).
Proof.
  assert (exportRuns utcDate Document decodeDocument Json Missing
            ([([accountMorning], 1699948900)] ++ [([contactNoon], 1699963300)])
            (Present (Json {| Results := [accountMorning; contactNoon];
                              LastRunCount := [ {| Date := "2023-11-14"; DateCount := 3 |} ] |})))
    as Hruns.
  { apply (exportRuns_cons _ _ _ _ _ _ _ (Present (Json stateAfterFirstRun))).
    - exists [ {| Date := "2023-11-14"; DateCount := 5 |} ]. split; [|reflexivity].
      unfold curCounts. vm_compute. reflexivity.
    - eapply exportRuns_cons; [|apply exportRuns_nil].
      exists [ {| Date := "2023-11-14"; DateCount := 3 |} ]. split; [|reflexivity].
      unfold curCounts. vm_compute. reflexivity. }
  split; [exact Hruns|].
  apply (exportRuns_accumulate utcDate Document decodeDocument Json decodeDocument_Json
           Missing _ {| Results := []; LastRunCount := [] |}
           [([accountMorning], 1699948900)] [contactNoon] 1699963300);
    [reflexivity|exact Hruns].
Defined.

#[local] Abbreviation exampleMain :=
  (main utcDate Document decodeDocument Json Z id exampleUnmarshal mainSf mainQueries
     exampleClock).

Example main_in_the_small_world :
  exampleMain "org" "deleted_fields.json" NoFault Missing
    (Returned, Present (Json stateOfTheRun)).
Proof.
  unfold main.
  replace (queryFieldData mainSf mainQueries "org" "soql/deleted_fields.soql" "" true)
    with (Ok (A:=string) exampleDeletedFields) by (vm_compute; reflexivity).
  replace (processDeletedFields Z id exampleUnmarshal mainSf mainQueries exampleClock
             exampleDeletedFields "org" {| deleteCounts := []; clockReads := 0 |})
    with (Done (tt, {| deleteCounts := [fooRecord]; clockReads := 1 |}))
    by (vm_compute; reflexivity).
  cbn. exists (Done tt), (Present (Json stateOfTheRun)). split; [|reflexivity].
  exists [ {| Date := "2023-11-14"; DateCount := 7 |} ]. split; [|reflexivity].
  unfold curCounts. vm_compute. reflexivity.
Qed.

Lemma main_writes_only_after_the_pipeline_witness :
  exampleMain "org" "deleted_fields.json" NoFault Missing
    (Returned, Present (Json stateOfTheRun)) ∧
  Present (Json stateOfTheRun) ≠ Missing ∧
  sfCliInstallCheck mainSf = true ∧
  exists deletedFieldsCSV p,
    queryFieldData mainSf mainQueries "org" "soql/deleted_fields.soql" "" true =
      Ok deletedFieldsCSV ∧
    processDeletedFields Z id exampleUnmarshal mainSf mainQueries exampleClock
      deletedFieldsCSV "org" freshProcess = Done (tt, p).
Proof.
  split; [exact main_in_the_small_world|]. split; [discriminate|].
  destruct (main_writes_only_after_the_pipeline utcDate Document decodeDocument Json
              Z id exampleUnmarshal mainSf mainQueries exampleClock
              "org" "deleted_fields.json" NoFault Missing
              (Returned, Present (Json stateOfTheRun)) main_in_the_small_world)
    as (_ & _ & Hcheck & csv & p & Hquery & Hrun & _); [discriminate|].
  split; [exact Hcheck|]. by exists csv, p.
Defined.

